(** * Query-synthesis pipeline of the MySQL chatbot (rag_engine.py, streamlit_bot.py)

    A shallow embedding of the pure parts of the two front ends: response
    sanitization ([generate_sql_query], last two statements of the [try]
    block), table selection ([select_relevant_tables]), intent detection
    ([is_ranking_query]) and answer formatting ([frame_answer]).  The two
    source files agree on these functions up to comments and one logging
    call, so one embedding serves both. *)

From Stdlib Require Import List NArith Arith Bool Lia String Ascii Decimal Sorting.Sorted Sorting.Permutation.
Import ListNotations.

(** ** Python strings

    A Python [str] is a sequence of Unicode code points; a code point is
    kept as a number of [N]. *)

Definition pystr : Type := list N.

Definition pystr_eq_dec : forall a b : pystr, {a = b} + {a <> b} :=
  list_eq_dec N.eq_dec.

(** Literals are written as Rocq strings and read byte by byte (the
    literals of the program are ASCII). *)
Definition py (s : string) : pystr :=
  map N_of_ascii (list_ascii_of_string s).

Definition nl : N := 10%N.
Definition backtick : N := 96%N.

(** [str.isspace] on one code point: the white space of CPython's
    [_PyUnicode_IsWhitespace], which [str.strip()] and [str.split()]
    (both without argument) use. *)
Definition isspace (c : N) : bool :=
  ((9 <=? c) && (c <=? 13) || (28 <=? c) && (c <=? 32)
   || (c =? 133) || (c =? 160) || (c =? 5760)
   || (8192 <=? c) && (c <=? 8202)
   || (c =? 8232) || (c =? 8233) || (c =? 8239) || (c =? 8287)
   || (c =? 12288))%N.

(** [s.lstrip()]: drop the leading white space. *)
Fixpoint lstrip (s : pystr) : pystr :=
  match s with
  | [] => []
  | c :: t => if isspace c then lstrip t else s
  end.

(** [s.rstrip()]: drop the trailing white space.  A character is kept when
    something is kept after it or when it is not white space. *)
Fixpoint rstrip (s : pystr) : pystr :=
  match s with
  | [] => []
  | c :: t =>
      match rstrip t with
      | [] => if isspace c then [] else [c]
      | r => c :: r
      end
  end.

(** [s.strip()]: both ends. *)
Definition strip (s : pystr) : pystr := rstrip (lstrip s).

(** ** The regular expression [```.*?```] with [re.DOTALL] *)

Definition fence : pystr := [backtick; backtick; backtick].

(** [strip_prefix p s]: what follows [p] when [s] starts with [p]. *)
Fixpoint strip_prefix (p s : pystr) : option pystr :=
  match p, s with
  | [], _ => Some s
  | _ :: _, [] => None
  | a :: p', c :: s' => if (a =? c)%N then strip_prefix p' s' else None
  end.

(** [find_after p s]: what follows the first occurrence of [p] in [s]. *)
Fixpoint find_after (p s : pystr) : option pystr :=
  match strip_prefix p s with
  | Some r => Some r
  | None =>
      match s with
      | [] => None
      | _ :: t => find_after p t
      end
  end.

(** A match of the pattern anchored at the head of [s]: the opening fence,
    then the lazy [.*?] (any characters, line breaks included, as few as
    possible), then the first closing fence.  The result is the text after
    the match. *)
Definition match_fence (s : pystr) : option pystr :=
  match strip_prefix fence s with
  | Some r => find_after fence r
  | None => None
  end.

(** [re.sub(r"```.*?```", "", s, flags=re.DOTALL)]: scan from the left; at
    a position where the pattern matches, drop the match and go on behind
    it; elsewhere keep the character.  The fuel is the length of the
    text, which the scan never exceeds. *)
Fixpoint re_sub_fuel (fuel : nat) (s : pystr) : pystr :=
  match fuel with
  | O => s
  | S f =>
      match s with
      | [] => []
      | c :: t =>
          match match_fence s with
          | Some rest => re_sub_fuel f rest
          | None => c :: re_sub_fuel f t
          end
      end
  end.

Definition re_sub_fences (s : pystr) : pystr := re_sub_fuel (List.length s) s.

(** The two statements of [generate_sql_query] that turn the backend's
    text into the query:
    [sql = response["message"]["content"].strip()] and
    [sql = re.sub(r"```.*?```", "", sql, flags=re.DOTALL).strip()]. *)
Definition sanitize (response : pystr) : pystr :=
  let sql := strip response in
  strip (re_sub_fences sql).

(** Occurrence predicates, as executable tests. *)

(** [starts_with p s]: [s.startswith(p)]. *)
Definition starts_with (p s : pystr) : bool :=
  match strip_prefix p s with Some _ => true | None => false end.

(** [contains p s]: [p in s]. *)
Definition contains (p s : pystr) : bool :=
  match find_after p s with Some _ => true | None => false end.

(** A fenced region starts at the head of [s]. *)
Definition head_block (s : pystr) : bool :=
  match match_fence s with Some _ => true | None => false end.

(** [s] holds a fenced region: an opening fence and, behind it, a closing
    one. *)
Fixpoint has_block (s : pystr) : bool :=
  head_block s || match s with [] => false | _ :: t => has_block t end.

(** ** Case mapping

    [str.lower] and [str.upper] are Python's; the pipeline is stated over
    any pair of them (the Variables of the Sections below).  For concrete
    runs the two functions are given here on the Latin-1 range
    U+0000..U+00FF, where they are Python's exactly: [upper] may leave the
    range (U+00B5 goes to U+039C, U+00FF to U+0178) or lengthen the text
    (U+00DF goes to the two letters SS).  Code points outside the range
    and its images are left unchanged by these two tables. *)

Definition lower_cp (c : N) : N :=
  (if (65 <=? c) && (c <=? 90) then c + 32
   else if (192 <=? c) && (c <=? 222) && negb (c =? 215) then c + 32
   else if c =? 376 then 255
   else if c =? 924 then 956
   else c)%N.

Definition upper_cp (c : N) : list N :=
  (if (97 <=? c) && (c <=? 122) then [c - 32]
   else if c =? 181 then [924]
   else if c =? 223 then [83; 83]
   else if (224 <=? c) && (c <=? 254) && negb (c =? 247) then [c - 32]
   else if c =? 255 then [376]
   else if c =? 956 then [924]
   else [c])%N.

Definition lower_latin1 (s : pystr) : pystr := map lower_cp s.
Definition upper_latin1 (s : pystr) : pystr := flat_map upper_cp s.

(** ** Words, sets of words, decimal numbers *)

(** [s.split()]: the maximal runs of characters that are not white
    space, left to right; [cur] is the run being read. *)
Definition flush (cur : pystr) : list pystr :=
  match cur with [] => [] | _ :: _ => [cur] end.

Fixpoint split_from (cur s : pystr) : list pystr :=
  match s with
  | [] => flush cur
  | c :: t =>
      if isspace c then flush cur ++ split_from [] t
      else split_from (cur ++ [c]) t
  end.

Definition split (s : pystr) : list pystr := split_from [] s.

(** [set(l)] for a list of strings: the distinct elements.  Only the
    number of elements and membership are observed by the program. *)
Definition pyset (l : list pystr) : list pystr := nodup pystr_eq_dec l.

Definition mem (w : pystr) (l : list pystr) : bool :=
  if in_dec pystr_eq_dec w l then true else false.

(** [a.intersection(b)]. *)
Definition intersection (a b : list pystr) : list pystr :=
  filter (fun w => mem w b) a.

(** [str(i)] for a natural number: its decimal digits. *)
Fixpoint uint_digits (d : uint) : pystr :=
  match d with
  | Nil => []
  | D0 d => 48%N :: uint_digits d
  | D1 d => 49%N :: uint_digits d
  | D2 d => 50%N :: uint_digits d
  | D3 d => 51%N :: uint_digits d
  | D4 d => 52%N :: uint_digits d
  | D5 d => 53%N :: uint_digits d
  | D6 d => 54%N :: uint_digits d
  | D7 d => 55%N :: uint_digits d
  | D8 d => 56%N :: uint_digits d
  | D9 d => 57%N :: uint_digits d
  end.

Definition str_of_nat (n : nat) : pystr := uint_digits (Nat.to_uint n).

(** [sep.join(l)]. *)
Fixpoint join (sep : pystr) (l : list pystr) : pystr :=
  match l with
  | [] => []
  | x :: r =>
      match r with
      | [] => x
      | _ :: _ => x ++ sep ++ join sep r
      end
  end.

(** [s.split("\n")]: the lines of a text. *)
Fixpoint split_lines (s : pystr) : list pystr :=
  match s with
  | [] => [[]]
  | c :: t =>
      if (c =? nl)%N then [] :: split_lines t
      else
        match split_lines t with
        | l :: ls => (c :: l) :: ls
        | [] => [[c]]
        end
  end.

(** ** Table metadata

    An entry of a table's ["columns"] list is a dictionary (with or
    without a ["name"], with or without a ["type"]), a bare string, or
    something else.  The names are strings, as the metadata document
    gives them; a table's ["table_name"] and ["description"] may be
    missing. *)

Inductive column_entry : Type :=
| ColDict (name : option pystr) (type : option pystr)
| ColStr (name : pystr)
| ColOther.

Record table : Type := mkTable {
  table_name : option pystr;
  description : option pystr;
  columns : list column_entry
}.

(** [str(table.get(key, ""))] on a string field. *)
Definition get_str (field : option pystr) : pystr :=
  match field with Some s => s | None => [] end.

(** [list.sort(key=..., reverse=True)] is stable: elements of equal key
    keep their order.  The sort is modelled by the insertion sort that
    has this property; [insert_desc x l] puts [x], which comes before
    the elements of [l] in the input, in front of the first element
    whose key is not larger. *)
Section Sort.
Variable A : Type.
Variable key : A -> nat.

Fixpoint insert_desc (x : A) (l : list A) : list A :=
  match l with
  | [] => [x]
  | y :: r => if key y <=? key x then x :: l else y :: insert_desc x r
  end.

Fixpoint sort_desc (l : list A) : list A :=
  match l with
  | [] => []
  | x :: r => insert_desc x (sort_desc r)
  end.

(** The order a stable descending sort produces, with [pos] the
    position in the input: [x] precedes [y] when its key is larger,
    or equal with a smaller position. *)
Variable pos : A -> nat.

Definition precedes (x y : A) : Prop :=
  key y < key x \/ (key x = key y /\ pos x < pos y).
End Sort.

Arguments insert_desc {A} key x l.
Arguments sort_desc {A} key l.
Arguments precedes {A} key pos x y.

(** ** The pipeline *)

Section Pipeline.
(** [str.lower]. *)
Variable lower : pystr -> pystr.

(** [is_ranking_query]. *)
Definition ranking_terms : list pystr :=
  map py ["top"; "highest"; "lowest"; "most"; "least";
          "maximum"; "minimum"; "rank"; "order"]%string.

Definition is_ranking_query (query : pystr) : bool :=
  existsb (fun k => contains k (lower query)) ranking_terms.

(** The inner loop of [select_relevant_tables] over [raw_columns]: a
    dictionary with a name and a bare string give a keyword, anything
    else is skipped (rag_engine.py logs a warning there). *)
Fixpoint column_names (raw_columns : list column_entry) : list pystr :=
  match raw_columns with
  | [] => []
  | ColDict (Some n) _ :: r => lower n :: column_names r
  | ColStr n :: r => lower n :: column_names r
  | _ :: r => column_names r
  end.

Definition table_keywords (t : table) : list pystr :=
  let name := lower (get_str (table_name t)) in
  let descr := lower (get_str (description t)) in
  pyset (split name ++ split descr ++ column_names (columns t)).

Definition query_words (query : pystr) : list pystr :=
  pyset (split (lower query)).

(** [score = len(query_words.intersection(keywords))]. *)
Definition score (query : pystr) (t : table) : nat :=
  List.length (intersection (query_words query) (table_keywords t)).

(** The outer loop: [scored] gets [(score, table)] for the tables of
    positive score, in the order of the metadata. *)
Fixpoint scored_tables (query : pystr) (metadata : list table)
  : list (nat * table) :=
  match metadata with
  | [] => []
  | t :: r =>
      let sc := score query t in
      if 0 <? sc then (sc, t) :: scored_tables query r
      else scored_tables query r
  end.

(** [select_relevant_tables]; [metadata] is the module's
    [TABLE_METADATA]. *)
Definition select_relevant_tables (query : pystr) (metadata : list table)
  : list table :=
  match scored_tables query metadata with
  | [] => firstn 3 metadata
  | scored => map snd (firstn 3 (sort_desc fst scored))
  end.

(** [frame_answer]: [value] is the type of the values of a row and
    [fmt] is how an f-string shows one. *)
Variable value : Type.
Variable fmt : value -> pystr.

(** [zip(cols, row)] is [combine]; the line of one row. *)
Definition row_line (cols : list pystr) (row : list value) : pystr :=
  join (py ", ")
       (map (fun cv => fst cv ++ py ": " ++ fmt (snd cv)) (combine cols row)).

Definition rank_prefix (i : nat) : pystr :=
  py "Rank " ++ str_of_nat i ++ py ": ".

(** One pass of the loop body: the text added for row number [i]. *)
Definition row_text (ranking : bool) (cols : list pystr) (i : nat)
           (row : list value) : pystr :=
  if ranking then rank_prefix i ++ row_line cols row ++ [nl]
  else row_line cols row ++ [nl].

(** The loop [for i, row in enumerate(rows, 1)], from number [i] on. *)
Fixpoint frame_rows (ranking : bool) (cols : list pystr) (i : nat)
         (rows : list (list value)) : pystr :=
  match rows with
  | [] => []
  | row :: r => row_text ranking cols i row ++ frame_rows ranking cols (S i) r
  end.

Definition frame_answer (query : pystr) (rows : list (list value))
           (cols : list pystr) : pystr :=
  match rows with
  | [] => py "No results found."
  | _ :: _ => strip (frame_rows (is_ranking_query query) cols 1 rows)
  end.
End Pipeline.

Arguments row_line {value} fmt cols row.
Arguments row_text {value} fmt ranking cols i row.
Arguments frame_rows {value} fmt ranking cols i rows.
Arguments frame_answer lower {value} fmt query rows cols.

(** ** Sample inputs *)

(** Scenario C of the specification: a query inside one fenced block. *)
Definition fenced_response : pystr :=
  py "```sql" ++ [nl] ++ py "SELECT 1;" ++ [nl] ++ py "```".

(** A response whose opening fence is never closed. *)
Definition unclosed_response : pystr :=
  py "```sql" ++ [nl] ++ py "SELECT 1;".

(** The pairs [(position, element)] of a list, positions counted from
    [k]. *)
Fixpoint enum_from {A : Type} (k : nat) (l : list A) : list (nat * A) :=
  match l with
  | [] => []
  | x :: r => (k, x) :: enum_from (S k) r
  end.

(** The lines of an answer before the final [strip()]: one per row,
    numbered from [i], each the row's text behind the rank prefix when
    [ranking] holds and the row's text alone otherwise. *)
Fixpoint row_lines {value : Type} (fmt : value -> pystr) (ranking : bool)
         (cols : list pystr) (i : nat) (rows : list (list value)) : list pystr :=
  match rows with
  | [] => []
  | row :: r =>
      (if ranking then rank_prefix i ++ row_line fmt cols row
       else row_line fmt cols row)
        :: row_lines fmt ranking cols (S i) r
  end.

(** What [strip()] does to a text given by its lines: the first line
    loses its leading white space, the last one its trailing white
    space. *)
Definition lstrip_first (lines : list pystr) : list pystr :=
  match lines with
  | [] => []
  | l :: r => lstrip l :: r
  end.

Fixpoint rstrip_last (lines : list pystr) : list pystr :=
  match lines with
  | [] => []
  | l :: r =>
      match r with
      | [] => [rstrip l]
      | _ :: _ => l :: rstrip_last r
      end
  end.

Definition trim_ends (lines : list pystr) : list pystr :=
  rstrip_last (lstrip_first lines).

(** A text with a character that is not white space. *)
Definition visible (s : pystr) : Prop := Exists (fun c => isspace c = false) s.

(** The text of newline-terminated lines. *)
Definition unlines (lines : list pystr) : pystr :=
  List.concat (map (fun l => l ++ [nl]) lines).

(** [Occurs p s]: [p] occurs in [s]. *)
Definition Occurs (p s : pystr) : Prop := exists a r, s = a ++ p ++ r.

(** [k] backticks. *)
Definition ticks (k : nat) : pystr := repeat backtick k.

(** Scenario A of the specification widened to five tables, and two
    questions: one with words of the metadata, one without. *)
Definition sample_table (name descr : string) (cols : list string) : table :=
  mkTable (Some (py name)) (Some (py descr)) (map (fun c => ColStr (py c)) cols).

Definition sample_metadata : list table :=
  [ sample_table "orders" "Customer orders" ["id"; "amount"];
    sample_table "users" "the users" ["id"; "name"];
    sample_table "items" "order items" ["id"; "order"; "amount"];
    sample_table "stock" "warehouse" ["sku"];
    sample_table "amount" "" [] ]%string.

Definition sample_question : pystr := py "what is the highest amount order".
Definition unrelated_question : pystr := py "hello".

(** A column named with U+00DF (sharp s), whose upper case is SS. *)
Definition strasse : pystr := py "stra" ++ [223%N] ++ py "e".

Definition german_metadata : list table :=
  [ mkTable (Some (py "kunden")) None [ColStr (py "name")];
    mkTable (Some (py "adressen")) None [ColStr strasse] ].

(** Result rows whose values are already texts. *)
Definition sample_cols : list pystr := [py "name"; py "amount"].
Definition sample_rows : list (list pystr) :=
  [ [py "ann"; py "12"]; [py "bob"; py "7"] ].

(** A single row whose value holds a line break. *)
Definition note_cols : list pystr := [py "note"].
Definition note_rows : list (list pystr) := [ [py "a" ++ [nl] ++ py "b"] ].

(** ** Loading the metadata

    [json.load] gives one table (a dictionary) or a list of tables; the
    module wraps a single dictionary into a list. *)

Inductive metadata_json : Type :=
| MetaDict (t : table)
| MetaList (l : list table).

Definition normalize_metadata (m : metadata_json) : list table :=
  match m with
  | MetaDict t => [t]
  | MetaList l => l
  end.

(** A keyword that can equal a word of [str.split()]: not empty and
    without white space. *)
Definition is_word (s : pystr) : bool :=
  match s with
  | [] => false
  | _ :: _ => forallb (fun c => negb (isspace c)) s
  end.

(** ** The prompt of [generate_sql_query]

    [t['table_name']] and [c['name']] raise [KeyError] on a missing key;
    the schema is built before the [try] block, so the error leaves the
    function.  [None] stands for that outcome. *)

Definition column_line (c : column_entry) : option pystr :=
  match c with
  | ColDict (Some n) ty =>
      Some (py "  - " ++ n ++ py " (" ++ get_str ty ++ py ")" ++ [nl])
  | ColDict None _ => None
  | ColStr n => Some (py "  - " ++ n ++ [nl])
  | ColOther => Some []
  end.

(** The inner loop: [schema] extended by the lines of the columns. *)
Fixpoint column_lines (schema : pystr) (cols : list column_entry) : option pystr :=
  match cols with
  | [] => Some schema
  | c :: r =>
      match column_line c with
      | Some l => column_lines (schema ++ l) r
      | None => None
      end
  end.

(** The outer loop over the selected tables. *)
Fixpoint table_sections (schema : pystr) (tables : list table) : option pystr :=
  match tables with
  | [] => Some schema
  | t :: r =>
      match table_name t with
      | None => None
      | Some n =>
          match column_lines (schema ++ [nl] ++ py "Table: " ++ n ++ [nl])
                             (columns t) with
          | Some schema' => table_sections schema' r
          | None => None
          end
      end
  end.

Definition build_schema (tables : list table) : option pystr :=
  table_sections (py "MySQL Schema:" ++ [nl]) tables.

Definition prompt_head : pystr :=
  [nl] ++ py "You are a senior MySQL expert." ++ [nl]
  ++ py "Generate ONLY a valid SELECT query." ++ [nl] ++ [nl].

Definition prompt_rules : pystr :=
  [nl] ++ [nl] ++ py "Rules:" ++ [nl] ++ py "- SELECT only" ++ [nl]
  ++ py "- No explanation" ++ [nl] ++ py "- No markdown" ++ [nl].

Definition build_prompt (schema user_query : pystr) : pystr :=
  prompt_head ++ schema ++ [nl] ++ [nl] ++ py "Question:" ++ [nl]
  ++ user_query ++ prompt_rules.

(** What the [try] block of [generate_sql_query] meets: the text of the
    backend's answer, or an exception with its message [str(e)]. *)
Inductive llm_result : Type :=
| LlmText (content : pystr)
| LlmRaise (message : pystr).

(** What [execute_sql] returns: rows and column names, or the message of
    a [mysql.connector.Error]. *)
Inductive db_result (value : Type) : Type :=
| DbRows (rows : list (list value)) (cols : list pystr)
| DbError (message : pystr).

Arguments DbRows {value} rows cols.
Arguments DbError {value} message.

(** The calls the pipeline makes to its two backends. *)
Inductive call : Type :=
| CallLlm (prompt : pystr)
| CallDb (sql : option pystr).

(** The widgets of the desktop front end and the record of the calls. *)
Record ui_state : Type := mkUi {
  output : pystr;
  input_box : pystr;
  calls : list call
}.

(** How a callback ends. *)
Inductive ending : Type := Returned | Raised.

(** A turn of the chat history of the web front end. *)
Record chat_turn : Type := mkTurn {
  turn_question : pystr;
  turn_sql : option pystr;
  turn_answer : pystr
}.

(** Python's truth value of an error message: [None] and the empty
    string are false. *)
Definition truthy (err : option pystr) : bool :=
  match err with
  | Some (_ :: _) => true
  | _ => false
  end.

(** [f"{sql}"] for a text or [None]. *)
Definition fmt_opt (s : option pystr) : pystr :=
  match s with Some x => x | None => py "None" end.

Section FrontEnds.
Variable lower : pystr -> pystr.
Variable value : Type.
Variable fmt : value -> pystr.
(** The model backend and the database. *)
Variable llm : pystr -> llm_result.
Variable db : option pystr -> db_result value.
Variable metadata : list table.

(** [generate_sql_query]: [None] when building the schema raised;
    otherwise the prompt sent and the pair [(sql, error)]. *)
Definition generate_sql_query (user_query : pystr)
  : option (pystr * (option pystr * option pystr)) :=
  let tables := select_relevant_tables lower user_query metadata in
  match build_schema tables with
  | None => None
  | Some schema =>
      let prompt := build_prompt schema user_query in
      match llm prompt with
      | LlmText content => Some (prompt, (Some (sanitize content), None))
      | LlmRaise message => Some (prompt, (None, Some message))
      end
  end.

(** [execute_sql] as the triple [(rows, columns, error)]. *)
Definition execute_sql (sql : option pystr)
  : option (list (list value)) * option (list pystr) * option pystr :=
  match db sql with
  | DbRows rows cols => (Some rows, Some cols, None)
  | DbError message => (None, None, Some message)
  end.

(** [frame_answer] on what [execute_sql] returned: [not rows] holds for
    [None] as for the empty list. *)
Definition frame_answer_of (user_query : pystr)
           (rows : option (list (list value))) (cols : option (list pystr))
  : pystr :=
  match rows with
  | None => py "No results found."
  | Some r =>
      frame_answer lower fmt user_query r
                   (match cols with Some c => c | None => [] end)
  end.

(** [handle_query] of [chatbot_ui]. *)
Definition handle_query (st : ui_state) : ui_state * ending :=
  let user_query := strip (input_box st) in
  match user_query with
  | [] => (st, Returned)
  | _ :: _ =>
      let out1 := output st ++ py "You: " ++ user_query ++ [nl; nl] in
      match generate_sql_query user_query with
      | None => (mkUi out1 (input_box st) (calls st), Raised)
      | Some (prompt, (sql, err)) =>
          let calls1 := calls st ++ [CallLlm prompt] in
          if truthy err then
            (mkUi (out1 ++ py "Error: " ++ fmt_opt err ++ [nl; nl])
                  (input_box st) calls1, Returned)
          else
            let out2 := out1 ++ py "SQL:" ++ [nl] ++ fmt_opt sql ++ [nl; nl] in
            let calls2 := calls1 ++ [CallDb sql] in
            match execute_sql sql with
            | (rows, cols, db_err) =>
                if truthy db_err then
                  (mkUi (out2 ++ py "DB Error: " ++ fmt_opt db_err ++ [nl; nl])
                        (input_box st) calls2, Returned)
                else
                  let answer := frame_answer_of user_query rows cols in
                  (mkUi (out2 ++ py "Bot:" ++ [nl] ++ answer ++ [nl; nl])
                        [] calls2, Returned)
            end
      end
  end.

(** The submit block of the web front end on the chat history: the
    history afterwards and the message shown by [st.error], if any.
    [None] when building the schema raised. *)
Definition submit (chat : list chat_turn) (submitted : bool) (user_query : pystr)
  : option (list chat_turn * option pystr) :=
  match submitted, user_query with
  | true, _ :: _ =>
      match generate_sql_query user_query with
      | None => None
      | Some (_, (sql, err)) =>
          if truthy err then Some (chat, err)
          else
            match execute_sql sql with
            | (rows, cols, db_err) =>
                if truthy db_err then Some (chat, db_err)
                else
                  let answer := frame_answer_of user_query rows cols in
                  Some (chat ++ [mkTurn user_query sql answer], None)
            end
      end
  | _, _ => Some (chat, None)
  end.
End FrontEnds.

Arguments execute_sql {value} db sql.
Arguments frame_answer_of lower {value} fmt user_query rows cols.
Arguments handle_query lower {value} fmt llm db metadata st.
Arguments submit lower {value} fmt llm db metadata chat submitted user_query.

(** A text that neither starts nor ends with white space. *)
Definition no_outer_space (s : pystr) : Prop :=
  match s with [] => True | c :: _ => isspace c = false end
  /\ match List.rev s with [] => True | c :: _ => isspace c = false end.

(** A column dictionary without ["name"]. *)
Definition nameless (c : column_entry) : bool :=
  match c with
  | ColDict None _ => true
  | _ => false
  end.

(** A table on which building the schema raises [KeyError]: it has no
    ["table_name"], or a column dictionary without ["name"]. *)
Definition missing_key (t : table) : bool :=
  match table_name t with
  | None => true
  | Some _ => existsb nameless (columns t)
  end.

(** Sample inputs of the further properties. *)
Definition prose_response_head : pystr := py "Here is the query: ".
Definition prose_response_block : pystr :=
  py "sql" ++ [nl] ++ py "SELECT 1;" ++ [nl].

Definition failing_llm (prompt : pystr) : llm_result :=
  LlmRaise (py "connection refused").

Definition echo_llm (prompt : pystr) : llm_result :=
  LlmText (py "SELECT name, amount FROM orders;").

Definition sample_db (sql : option pystr) : db_result pystr :=
  DbRows sample_rows sample_cols.

Definition sample_ui : ui_state :=
  mkUi [] (py "  top orders " ++ [nl]) [].

Definition ui_question : pystr := py "top orders".

Definition sample_schema : pystr :=
  py "MySQL Schema:" ++ [nl] ++ [nl] ++ py "Table: orders" ++ [nl]
  ++ py "  - id" ++ [nl] ++ py "  - amount" ++ [nl].

Definition sample_sql : pystr := py "SELECT name, amount FROM orders;".

Definition silent_llm (prompt : pystr) : llm_result := LlmRaise [].

Definition failing_db (sql : option pystr) : db_result pystr :=
  DbError (py "access denied").

Definition blank_ui : ui_state := mkUi (py "earlier") (py "   " ++ [nl]) [].

(** * Properties *)

(** ** Prefixes and occurrences *)

Lemma strip_prefix_spec (p s r : pystr) :
  strip_prefix p s = Some r <-> s = p ++ r.
Proof.
  revert s; induction p as [|a p IH]; intros s; simpl.
  - split; [intros [= ->]; reflexivity | intros ->; reflexivity].
  - destruct s as [|c s]; [split; discriminate|].
    destruct (N.eqb_spec a c) as [->|Hne].
    + rewrite IH. split; [intros ->; reflexivity | intros [= ->]; reflexivity].
    + split; [discriminate | intros [= E _]; congruence].
Qed.

Lemma find_after_sound (p s r : pystr) :
  find_after p s = Some r -> exists a, s = a ++ p ++ r.
Proof.
  induction s as [|c s IH]; simpl.
  - destruct (strip_prefix p []) eqn:E; [|discriminate].
    intros [= ->]. apply strip_prefix_spec in E. exists []. exact E.
  - destruct (strip_prefix p (c :: s)) eqn:E.
    + intros [= ->]. apply strip_prefix_spec in E. exists []. exact E.
    + intros H. destruct (IH H) as [a ->]. exists (c :: a). reflexivity.
Qed.

Lemma find_after_complete (p s : pystr) :
  Occurs p s -> exists r, find_after p s = Some r.
Proof.
  intros (a & r & ->). induction a as [|c a IH]; simpl.
  - destruct p as [|x p]; simpl.
    + destruct r; eexists; reflexivity.
    + rewrite N.eqb_refl.
      assert (E : strip_prefix p (p ++ r) = Some r) by (apply strip_prefix_spec; reflexivity).
      rewrite E. eexists; reflexivity.
  - destruct (strip_prefix p (c :: a ++ p ++ r)); [eexists; reflexivity | exact IH].
Qed.

Lemma contains_Occurs (p s : pystr) : contains p s = true <-> Occurs p s.
Proof.
  unfold contains. split.
  - destruct (find_after p s) as [r|] eqn:E; [|discriminate].
    intros _. destruct (find_after_sound _ _ _ E) as [a ->]. exists a, r. reflexivity.
  - intros H. destruct (find_after_complete _ _ H) as [r ->]. reflexivity.
Qed.

Lemma Occurs_cons (p s : pystr) (c : N) : Occurs p s -> Occurs p (c :: s).
Proof. intros (a & r & ->). exists (c :: a), r. reflexivity. Qed.

Lemma Occurs_app_l (p s w : pystr) : Occurs p s -> Occurs p (w ++ s).
Proof. intros (a & r & ->). exists (w ++ a), r. now rewrite app_assoc. Qed.

Lemma Occurs_nil (p : pystr) : p <> [] -> ~ Occurs p [].
Proof.
  intros Hp (a & r & E). symmetry in E.
  apply app_eq_nil in E as [_ E]. apply app_eq_nil in E as [E _]. contradiction.
Qed.

(** A fenced region at the head: the opening fence, then a text in which
    the closing fence occurs. *)
Lemma match_fence_sound (s rest : pystr) :
  match_fence s = Some rest ->
  exists m, s = fence ++ m ++ fence ++ rest.
Proof.
  unfold match_fence. destruct (strip_prefix fence s) as [r|] eqn:E; [|discriminate].
  apply strip_prefix_spec in E. intros H.
  destruct (find_after_sound _ _ _ H) as [m ->]. exists m. exact E.
Qed.

Lemma head_block_spec (s : pystr) :
  head_block s = true <-> exists y, s = fence ++ y /\ Occurs fence y.
Proof.
  unfold head_block, match_fence. split.
  - destruct (strip_prefix fence s) as [r|] eqn:E; [|discriminate].
    apply strip_prefix_spec in E.
    destruct (find_after fence r) as [rest|] eqn:F; [|discriminate].
    intros _. exists r. split; [exact E|].
    destruct (find_after_sound _ _ _ F) as [a ->]. exists a, rest. reflexivity.
  - intros (y & -> & Hy).
    assert (E : strip_prefix fence (fence ++ y) = Some y) by (apply strip_prefix_spec; reflexivity).
    rewrite E. destruct (find_after_complete _ _ Hy) as [r ->]. reflexivity.
Qed.

Lemma match_fence_none (s : pystr) :
  match_fence s = None <-> head_block s = false.
Proof.
  unfold head_block. destruct (match_fence s); split; congruence.
Qed.

Lemma has_block_spec (s : pystr) :
  has_block s = true <-> exists a m b, s = a ++ fence ++ m ++ fence ++ b.
Proof.
  induction s as [|c s IH].
  - split; [intros H; cbv in H; discriminate H|].
    intros (a & m & b & E). destruct a; discriminate E.
  - change (has_block (c :: s)) with (head_block (c :: s) || has_block s).
    rewrite orb_true_iff, IH, head_block_spec. split.
    + intros [(y & E & a & r & ->) | (a & m & b & ->)].
      * exists [], a, r. exact E.
      * exists (c :: a), m, b. reflexivity.
    + intros (a & m & b & E). destruct a as [|x a].
      * left. exists (m ++ fence ++ b). split; [exact E | exists m, b; reflexivity].
      * right. injection E as _ ->. exists a, m, b. reflexivity.
Qed.

(** ** The substitution *)

Lemma match_fence_shorter (s rest : pystr) :
  match_fence s = Some rest -> List.length rest < List.length s.
Proof.
  intros H. destruct (match_fence_sound _ _ H) as [m ->].
  rewrite !length_app. simpl. lia.
Qed.

Lemma re_sub_fuel_indep (f1 f2 : nat) (s : pystr) :
  List.length s <= f1 -> List.length s <= f2 ->
  re_sub_fuel f1 s = re_sub_fuel f2 s.
Proof.
  revert f2 s. induction f1 as [|f1 IH]; intros f2 s H1 H2.
  - destruct s; [destruct f2; reflexivity | simpl in H1; lia].
  - destruct s as [|c t]; [destruct f2; reflexivity|].
    destruct f2 as [|f2]; [simpl in H2; lia|].
    cbn [re_sub_fuel]. simpl in H1, H2.
    destruct (match_fence (c :: t)) as [rest|] eqn:E.
    + pose proof (match_fence_shorter _ _ E) as Hr. simpl in Hr.
      apply IH; lia.
    + f_equal. apply IH; lia.
Qed.

Lemma re_sub_fuel_enough (fuel : nat) (s : pystr) :
  List.length s <= fuel -> re_sub_fuel fuel s = re_sub_fences s.
Proof. intros H. apply re_sub_fuel_indep; [exact H | apply le_n]. Qed.

Lemma re_sub_nil : re_sub_fences [] = [].
Proof. reflexivity. Qed.

Lemma re_sub_cons (c : N) (t : pystr) :
  re_sub_fences (c :: t) =
  match match_fence (c :: t) with
  | Some rest => re_sub_fences rest
  | None => c :: re_sub_fences t
  end.
Proof.
  unfold re_sub_fences at 1. cbn [List.length re_sub_fuel].
  destruct (match_fence (c :: t)) as [rest|] eqn:E.
  - apply re_sub_fuel_enough. pose proof (match_fence_shorter _ _ E) as Hr. simpl in Hr. lia.
  - reflexivity.
Qed.

(** Induction on the length of the text, the order in which the scan
    proceeds. *)
Lemma pystr_length_ind (P : pystr -> Prop) :
  (forall s, (forall u, List.length u < List.length s -> P u) -> P s) ->
  forall s, P s.
Proof.
  intros Hstep s.
  assert (H : forall n u, List.length u < n -> P u).
  { induction n as [|n IH]; intros u Hu; [lia|].
    apply Hstep. intros v Hv. apply IH. lia. }
  apply (H (S (List.length s))). lia.
Qed.

Lemma fence_ticks (k : nat) :
  k <= 3 -> fence = ticks k ++ ticks (3 - k).
Proof.
  intros H. destruct k as [|[|[|[|k]]]]; try reflexivity. lia.
Qed.

(** What the substitution leaves starts with backticks only where the
    text did. *)
Lemma re_sub_ticks (k : nat) :
  k <= 3 ->
  forall t y, re_sub_fences t = ticks k ++ y -> exists y', t = ticks k ++ y'.
Proof.
  induction k as [|k IH]; intros Hk t y E.
  - exists t. reflexivity.
  - destruct t as [|c t]; [discriminate E|].
    rewrite re_sub_cons in E.
    destruct (match_fence (c :: t)) as [rest|] eqn:M.
    + destruct (match_fence_sound _ _ M) as [m ->].
      rewrite (fence_ticks _ Hk), <- app_assoc. eexists; reflexivity.
    + injection E as -> E.
      destruct (IH ltac:(lia) _ _ E) as [y' ->]. exists y'. reflexivity.
Qed.

(** A fence in what the substitution leaves was a fence of the text. *)
Lemma re_sub_Occurs (t : pystr) :
  Occurs fence (re_sub_fences t) -> Occurs fence t.
Proof.
  induction t as [t IH] using pystr_length_ind.
  destruct t as [|c t]; [intros H; exact H|].
  rewrite re_sub_cons.
  destruct (match_fence (c :: t)) as [rest|] eqn:M.
  - intros _. destruct (match_fence_sound _ _ M) as [m ->].
    exists [], (m ++ fence ++ rest). reflexivity.
  - intros (a & r & E). destruct a as [|x a].
    + injection E as -> E.
      destruct (@re_sub_ticks 2 ltac:(lia) _ _ E) as [y' ->].
      exists [], y'. reflexivity.
    + injection E as _ E. apply Occurs_cons. apply IH; [simpl; lia|].
      exists a, r. exact E.
Qed.

(** The same with [k] backticks in front of the fence. *)
Lemma re_sub_ticks_Occurs (k : nat) :
  k <= 3 ->
  forall t y, re_sub_fences t = ticks k ++ y -> Occurs fence y ->
  exists y', t = ticks k ++ y' /\ Occurs fence y'.
Proof.
  induction k as [|k IH]; intros Hk t y E Hy.
  - exists t. split; [reflexivity|]. apply re_sub_Occurs.
    simpl in E. rewrite E. exact Hy.
  - destruct t as [|c t]; [discriminate E|].
    rewrite re_sub_cons in E.
    destruct (match_fence (c :: t)) as [rest|] eqn:M.
    + destruct (match_fence_sound _ _ M) as [m ->].
      rewrite (fence_ticks _ Hk), <- app_assoc. eexists. split; [reflexivity|].
      apply Occurs_app_l. exists m, rest. reflexivity.
    + injection E as -> E.
      destruct (IH ltac:(lia) _ _ E Hy) as (y' & -> & Hy'). exists y'.
      split; [reflexivity | exact Hy'].
Qed.

Lemma re_sub_head_block (t : pystr) :
  head_block (re_sub_fences t) = true -> head_block t = true.
Proof.
  rewrite !head_block_spec. intros (y & E & Hy).
  exact (@re_sub_ticks_Occurs 3 ltac:(lia) t y E Hy).
Qed.

(** No fenced region is left by the substitution. *)
Lemma re_sub_no_block (s : pystr) : has_block (re_sub_fences s) = false.
Proof.
  induction s as [s IH] using pystr_length_ind.
  destruct s as [|c t]; [reflexivity|].
  rewrite re_sub_cons.
  destruct (match_fence (c :: t)) as [rest|] eqn:M.
  - apply IH. exact (match_fence_shorter _ _ M).
  - change (has_block (c :: re_sub_fences t))
      with (head_block (c :: re_sub_fences t) || has_block (re_sub_fences t)).
    rewrite (IH t) by (simpl; lia). rewrite orb_false_r.
    destruct (head_block (c :: re_sub_fences t)) eqn:H; [|reflexivity].
    assert (H' : head_block (re_sub_fences (c :: t)) = true)
      by (rewrite re_sub_cons, M; exact H).
    apply re_sub_head_block in H'. apply match_fence_none in M. congruence.
Qed.

(** A text without fenced region is left as it is. *)
Lemma re_sub_fixed (s : pystr) : has_block s = false -> re_sub_fences s = s.
Proof.
  induction s as [|c t IH]; [reflexivity|].
  change (has_block (c :: t)) with (head_block (c :: t) || has_block t).
  intros H. apply orb_false_iff in H as [Hh Ht].
  rewrite re_sub_cons. apply match_fence_none in Hh. rewrite Hh, (IH Ht).
  reflexivity.
Qed.

(** ** Stripping *)

Lemma lstrip_suffix (s : pystr) : exists w, s = w ++ lstrip s.
Proof.
  induction s as [|c t [w IH]]; [exists []; reflexivity|].
  simpl. destruct (isspace c).
  - exists (c :: w). simpl. f_equal. exact IH.
  - exists []. reflexivity.
Qed.

Lemma rstrip_prefix (s : pystr) : exists w, s = rstrip s ++ w.
Proof.
  induction s as [|c t [w IH]]; [exists []; reflexivity|].
  simpl. destruct (rstrip t) as [|x r].
  - destruct (isspace c).
    + exists (c :: t). reflexivity.
    + exists w. simpl. f_equal. exact IH.
  - exists w. simpl. f_equal. exact IH.
Qed.

(** [rstrip] is [lstrip] read from the other end. *)
Lemma lstrip_snoc (a : pystr) (c : N) :
  lstrip (a ++ [c]) =
  match lstrip a with
  | [] => if isspace c then [] else [c]
  | r => r ++ [c]
  end.
Proof.
  induction a as [|x a IH]; simpl; [reflexivity|].
  destruct (isspace x); [exact IH | reflexivity].
Qed.

Lemma rstrip_rev (s : pystr) : rstrip s = List.rev (lstrip (List.rev s)).
Proof.
  induction s as [|c t IH]; [reflexivity|].
  simpl. rewrite lstrip_snoc, IH.
  destruct (lstrip (List.rev t)) as [|y r]; [simpl; destruct (isspace c); reflexivity|].
  rewrite rev_unit. destruct (List.rev (y :: r)) eqn:E; [|reflexivity].
  apply (f_equal (@List.length N)) in E. rewrite length_rev in E. discriminate E.
Qed.

Lemma strip_infix (s : pystr) : exists a b, s = a ++ strip s ++ b.
Proof.
  unfold strip. destruct (lstrip_suffix s) as [a Ha].
  destruct (rstrip_prefix (lstrip s)) as [b Hb].
  exists a, b. rewrite <- Hb. exact Ha.
Qed.

Lemma has_block_infix (a s b : pystr) :
  has_block s = true -> has_block (a ++ s ++ b) = true.
Proof.
  rewrite !has_block_spec. intros (x & m & y & ->).
  exists (a ++ x), m, (y ++ b). now rewrite <- !app_assoc.
Qed.

Lemma strip_no_block (s : pystr) :
  has_block s = false -> has_block (strip s) = false.
Proof.
  intros H. destruct (has_block (strip s)) eqn:E; [|reflexivity].
  destruct (strip_infix s) as (a & b & Hs).
  apply (@has_block_infix a _ b) in E. rewrite <- Hs in E. congruence.
Qed.

Lemma lstrip_head (s : pystr) :
  match lstrip s with [] => True | c :: _ => isspace c = false end.
Proof.
  induction s as [|c t IH]; simpl; [exact I|].
  destruct (isspace c) eqn:E; [exact IH | exact E].
Qed.

Lemma lstrip_fixed (s : pystr) :
  match s with [] => True | c :: _ => isspace c = false end -> lstrip s = s.
Proof. destruct s as [|c t]; simpl; [reflexivity | intros ->; reflexivity]. Qed.

Lemma rstrip_head (c : N) (t : pystr) :
  isspace c = false -> exists r, rstrip (c :: t) = c :: r.
Proof.
  intros H. simpl. destruct (rstrip t); rewrite ?H; eexists; reflexivity.
Qed.

Lemma rstrip_idem (s : pystr) : rstrip (rstrip s) = rstrip s.
Proof.
  induction s as [|c t IH]; [reflexivity|].
  simpl. destruct (rstrip t) as [|x r] eqn:E.
  - destruct (isspace c) eqn:Hc; [reflexivity|]. simpl. rewrite Hc. reflexivity.
  - change (rstrip (c :: x :: r)) with
      (match rstrip (x :: r) with [] => if isspace c then [] else [c] | r' => c :: r' end).
    rewrite IH. reflexivity.
Qed.

Lemma strip_idem (s : pystr) : strip (strip s) = strip s.
Proof.
  unfold strip.
  assert (H : lstrip (rstrip (lstrip s)) = rstrip (lstrip s)).
  { pose proof (lstrip_head s) as Hh. destruct (lstrip s) as [|c t]; [reflexivity|].
    destruct (@rstrip_head c t Hh) as [r ->]. simpl. rewrite Hh. reflexivity. }
  rewrite H. apply rstrip_idem.
Qed.

(** ** Sanitization *)

(** C1: on the response of Scenario C, a single fenced block holding
    [SELECT 1;], the sanitization step of [generate_sql_query] returns the
    empty string: the pattern matches from the opening fence to the
    closing one and the whole match, the query included, is replaced by
    nothing.  The result is not [SELECT 1;]. *)
Theorem sanitize_fenced_response :
  sanitize fenced_response = [] /\ sanitize fenced_response <> py "SELECT 1;".
Proof. split; [vm_compute; reflexivity | vm_compute; discriminate]. Qed.

(** C2, as stated, fails: a response with an opening fence and no closing
    one keeps its fence marker through sanitization. *)
Lemma sanitize_keeps_unclosed_fence :
  contains fence (sanitize unclosed_response) = true.
Proof. vm_compute. reflexivity. Qed.

(** C2, amended: for every response, the sanitized query holds no fenced
    region, that is no fence marker followed, behind it, by another fence
    marker. *)
Theorem sanitize_no_fenced_region (response a m b : pystr) :
  sanitize response <> a ++ fence ++ m ++ fence ++ b.
Proof.
  intros E.
  assert (H : has_block (sanitize response) = true)
    by (apply has_block_spec; exists a, m, b; exact E).
  unfold sanitize in H. rewrite strip_no_block in H; [discriminate|].
  apply re_sub_no_block.
Qed.

(** C3: sanitizing a sanitized text changes nothing. *)
Theorem sanitize_idempotent (s : pystr) : sanitize (sanitize s) = sanitize s.
Proof.
  unfold sanitize at 1.
  assert (Hs : strip (sanitize s) = sanitize s) by (unfold sanitize; apply strip_idem).
  rewrite Hs. rewrite re_sub_fixed; [exact Hs|].
  unfold sanitize. apply strip_no_block, re_sub_no_block.
Qed.

(** ** The stable sort *)

Section SortFacts.
Variable A : Type.
Variable key : A -> nat.

Lemma In_insert_desc (x y : A) (l : list A) :
  In y (insert_desc key x l) <-> y = x \/ In y l.
Proof.
  induction l as [|z r IH]; simpl.
  - intuition.
  - destruct (key z <=? key x); simpl; [intuition|]. rewrite IH. intuition.
Qed.

Lemma In_sort_desc (y : A) (l : list A) :
  In y (sort_desc key l) <-> In y l.
Proof.
  induction l as [|x r IH]; simpl; [tauto|].
  rewrite In_insert_desc, IH. intuition.
Qed.

Lemma length_insert_desc (x : A) (l : list A) :
  List.length (insert_desc key x l) = S (List.length l).
Proof.
  induction l as [|z r IH]; simpl; [reflexivity|].
  destruct (key z <=? key x); simpl; [reflexivity | now rewrite IH].
Qed.

Lemma length_sort_desc (l : list A) :
  List.length (sort_desc key l) = List.length l.
Proof.
  induction l as [|x r IH]; simpl; [reflexivity|].
  now rewrite length_insert_desc, IH.
Qed.

Variable pos : A -> nat.

Lemma precedes_trans (x y z : A) :
  precedes key pos x y -> precedes key pos y z -> precedes key pos x z.
Proof. unfold precedes. lia. Qed.

Lemma insert_desc_sorted (x : A) (l : list A) :
  StronglySorted (precedes key pos) l ->
  Forall (fun y => pos x < pos y) l ->
  StronglySorted (precedes key pos) (insert_desc key x l).
Proof.
  induction 1 as [|z r Hr IH Hz]; intros Hpos; simpl.
  - constructor; constructor.
  - inversion Hpos as [|? ? Hxz Hxr]; subst.
    destruct (Nat.leb_spec (key z) (key x)) as [Hle|Hlt].
    + assert (Hp : precedes key pos x z) by (unfold precedes; lia).
      constructor; [constructor; assumption|].
      constructor; [exact Hp|].
      eapply Forall_impl; [|exact Hz]. intros y Hy.
      exact (precedes_trans _ _ _ Hp Hy).
    + constructor; [apply IH; exact Hxr|].
      apply Forall_forall. intros y Hy.
      apply In_insert_desc in Hy as [->|Hy].
      * unfold precedes; lia.
      * rewrite Forall_forall in Hz. apply Hz, Hy.
Qed.

(** Sorting a list given in the order of its positions: the stable
    order. *)
Lemma sort_desc_sorted (l : list A) :
  StronglySorted (fun x y => pos x < pos y) l ->
  StronglySorted (precedes key pos) (sort_desc key l).
Proof.
  induction 1 as [|x r Hr IH Hx]; simpl; [constructor|].
  apply insert_desc_sorted; [exact IH|].
  apply Forall_forall. intros y Hy. rewrite In_sort_desc in Hy.
  rewrite Forall_forall in Hx. apply Hx, Hy.
Qed.
End SortFacts.

Lemma insert_desc_map (A B : Type) (key : B -> nat) (g : A -> B) (x : A) (l : list A) :
  insert_desc key (g x) (map g l) = map g (insert_desc (fun a => key (g a)) x l).
Proof.
  induction l as [|z r IH]; simpl; [reflexivity|].
  destruct (key (g z) <=? key (g x)); simpl; [reflexivity | now rewrite IH].
Qed.

Lemma sort_desc_map (A B : Type) (key : B -> nat) (g : A -> B) (l : list A) :
  sort_desc key (map g l) = map g (sort_desc (fun a => key (g a)) l).
Proof.
  induction l as [|x r IH]; simpl; [reflexivity|].
  now rewrite IH, insert_desc_map.
Qed.

Lemma In_firstn (A : Type) (n : nat) (l : list A) (y : A) :
  In y (firstn n l) -> In y l.
Proof.
  intros H. rewrite <- (firstn_skipn n l). apply in_or_app. left. exact H.
Qed.

Lemma StronglySorted_firstn (A : Type) (R : A -> A -> Prop) (n : nat) (l : list A) :
  StronglySorted R l -> StronglySorted R (firstn n l).
Proof.
  intros H. revert n. induction H as [|x r Hr IH Hx]; intros [|n]; simpl; try constructor.
  - apply IH.
  - apply Forall_forall. intros y Hy. apply In_firstn in Hy.
    rewrite Forall_forall in Hx. apply Hx, Hy.
Qed.

Lemma StronglySorted_filter_pos (A : Type) (R : A -> A -> Prop) (f : A -> bool) (l : list A) :
  StronglySorted R l -> StronglySorted R (filter f l).
Proof.
  induction 1 as [|x r Hr IH Hx]; simpl; [constructor|].
  destruct (f x); [|exact IH]. constructor; [exact IH|].
  apply Forall_forall. intros y Hy. apply filter_In in Hy as [Hy _].
  rewrite Forall_forall in Hx. apply Hx, Hy.
Qed.

Lemma StronglySorted_weaken (A : Type) (R S : A -> A -> Prop) (l : list A) :
  (forall x y, R x y -> S x y) -> StronglySorted R l -> StronglySorted S l.
Proof.
  intros HRS. induction 1 as [|x r Hr IH Hx]; constructor; [exact IH|].
  eapply Forall_impl; [|exact Hx]. intros y. apply HRS.
Qed.

Lemma StronglySorted_map (A B : Type) (R : B -> B -> Prop) (g : A -> B) (l : list A) :
  StronglySorted (fun x y => R (g x) (g y)) l -> StronglySorted R (map g l).
Proof.
  induction 1 as [|x r Hr IH Hx]; simpl; constructor; [exact IH|].
  apply Forall_map. exact Hx.
Qed.

(** ** Positions *)

Lemma map_snd_enum_from (A : Type) (k : nat) (l : list A) :
  map snd (enum_from k l) = l.
Proof. revert k; induction l as [|x r IH]; intros k; simpl; [reflexivity | now rewrite IH]. Qed.

Lemma enum_from_nth (A : Type) (k : nat) (l : list A) (p : nat * A) :
  In p (enum_from k l) -> k <= fst p /\ nth_error l (fst p - k) = Some (snd p).
Proof.
  revert k; induction l as [|x r IH]; intros k; simpl; [tauto|].
  intros [<-|H].
  - simpl. rewrite Nat.sub_diag. split; [lia | reflexivity].
  - destruct (IH _ H) as [Hk Hn]. split; [lia|].
    replace (fst p - k) with (S (fst p - S k)) by lia. exact Hn.
Qed.

Lemma enum_from_sorted (A : Type) (k : nat) (l : list A) :
  StronglySorted (fun p p' : nat * A => fst p < fst p') (enum_from k l).
Proof.
  revert k; induction l as [|x r IH]; intros k; simpl; constructor; [apply IH|].
  apply Forall_forall. intros p Hp. apply enum_from_nth in Hp as [Hp _]. simpl. lia.
Qed.

(** ** Table selection *)

Section Selection.
Variable lower : pystr -> pystr.


(** [scored] holds the tables of positive score with their scores, in
    the order of the metadata; [k] is the position of the first
    table. *)
Lemma scored_tables_enum (k : nat) (query : pystr) (metadata : list table) :
  scored_tables lower query metadata =
  map (fun p : nat * table => (score lower query (snd p), snd p))
      (filter (fun p : nat * table => 0 <? score lower query (snd p))
              (enum_from k metadata)).
Proof.
  revert k. induction metadata as [|t r IH]; intros k; simpl; [reflexivity|].
  destruct (0 <? score lower query t); simpl; now rewrite (IH (S k)).
Qed.

Lemma scored_tables_nil (query : pystr) (metadata : list table) :
  Forall (fun t => score lower query t = 0) metadata ->
  scored_tables lower query metadata = [].
Proof.
  induction 1 as [|t r Ht Hr IH]; simpl; [reflexivity|].
  rewrite Ht. simpl. exact IH.
Qed.

Lemma scored_tables_cons (query : pystr) (metadata : list table) :
  Exists (fun t => 0 < score lower query t) metadata ->
  scored_tables lower query metadata <> [].
Proof.
  induction 1 as [t r Ht|t r Hr IH]; simpl.
  - apply Nat.ltb_lt in Ht. rewrite Ht. discriminate.
  - destruct (0 <? score lower query t); [discriminate | exact IH].
Qed.

(** With a table of positive score, the result is the sorted list of
    such tables cut to three, here with the positions in the
    metadata. *)
Lemma select_scored (query : pystr) (metadata : list table) :
  scored_tables lower query metadata <> [] ->
  select_relevant_tables lower query metadata =
  map snd (firstn 3 (sort_desc (fun p : nat * table => score lower query (snd p))
                       (filter (fun p : nat * table => 0 <? score lower query (snd p))
                               (enum_from 0 metadata)))).
Proof.
  intros Hne. unfold select_relevant_tables.
  destruct (scored_tables lower query metadata) as [|p l] eqn:E; [contradiction|].
  rewrite <- E, (scored_tables_enum 0).
  rewrite sort_desc_map, firstn_map, map_map. reflexivity.
Qed.

(** C4: when every table scores 0, the result is the first three
    tables of the metadata in their order; in particular it is empty
    when the metadata is. *)
Theorem select_fallback (query : pystr) (metadata : list table) :
  Forall (fun t => score lower query t = 0) metadata ->
  select_relevant_tables lower query metadata = firstn 3 metadata
  /\ (metadata = [] -> select_relevant_tables lower query metadata = []).
Proof.
  intros H.
  assert (E : select_relevant_tables lower query metadata = firstn 3 metadata).
  { unfold select_relevant_tables. rewrite (scored_tables_nil _ _ H). reflexivity. }
  split; [exact E|]. intros ->. reflexivity.
Qed.

(** C7: when some table scores above 0, every returned table scores
    above 0, the scores do not increase along the result, and the
    returned tables sit at positions of the metadata such that, of two
    returned tables with equal scores, the earlier one in the result
    has the smaller position. *)
Theorem select_positive_descending_stable
        (query : pystr) (metadata : list table) :
  Exists (fun t => 0 < score lower query t) metadata ->
  exists ps : list (nat * table),
    select_relevant_tables lower query metadata = map snd ps
    /\ Forall (fun p => nth_error metadata (fst p) = Some (snd p)) ps
    /\ Forall (fun t => 0 < score lower query t) (select_relevant_tables lower query metadata)
    /\ StronglySorted (fun t t' => score lower query t' <= score lower query t)
                      (select_relevant_tables lower query metadata)
    /\ StronglySorted
         (fun p p' => score lower query (snd p) = score lower query (snd p') ->
                      fst p < fst p') ps.
Proof.
  intros Hex. rewrite (select_scored _ _ (scored_tables_cons _ _ Hex)).
  set (key := fun p : nat * table => score lower query (snd p)).
  set (E := filter (fun p : nat * table => 0 <? key p) (enum_from 0 metadata)).
  assert (HE : forall p, In p (firstn 3 (sort_desc key E)) ->
                         nth_error metadata (fst p) = Some (snd p) /\ 0 < key p).
  { intros p Hp. apply In_firstn in Hp. rewrite In_sort_desc in Hp.
    apply filter_In in Hp as [Hp Hs]. apply Nat.ltb_lt in Hs.
    apply enum_from_nth in Hp as [_ Hp]. rewrite Nat.sub_0_r in Hp. tauto. }
  assert (HS : StronglySorted (precedes key fst) (firstn 3 (sort_desc key E))).
  { apply StronglySorted_firstn, sort_desc_sorted.
    apply StronglySorted_filter_pos, enum_from_sorted. }
  exists (firstn 3 (sort_desc key E)). repeat split.
  - apply Forall_forall. intros p Hp. apply HE, Hp.
  - apply Forall_map, Forall_forall. intros p Hp. apply HE, Hp.
  - apply StronglySorted_map. revert HS. apply StronglySorted_weaken.
    unfold precedes, key. intros x y. lia.
  - revert HS. apply StronglySorted_weaken.
    unfold precedes, key. intros x y. lia.
Qed.

(** C9: at most three tables are returned, each one a table of the
    metadata. *)
Theorem select_bounded_from_metadata (query : pystr) (metadata : list table) :
  List.length (select_relevant_tables lower query metadata) <= 3
  /\ Forall (fun t => In t metadata) (select_relevant_tables lower query metadata).
Proof.
  unfold select_relevant_tables.
  destruct (scored_tables lower query metadata) as [|p l] eqn:E.
  - split; [apply firstn_le_length|].
    apply Forall_forall. intros t. apply In_firstn.
  - assert (Hne : scored_tables lower query metadata <> []) by (rewrite E; discriminate).
    rewrite <- E. pose proof (select_scored _ _ Hne) as Hs.
    unfold select_relevant_tables in Hs. rewrite E in Hs. rewrite <- E in Hs.
    rewrite Hs. split.
    + rewrite length_map. apply firstn_le_length.
    + apply Forall_map, Forall_forall. intros q Hq.
      apply In_firstn in Hq. rewrite In_sort_desc in Hq.
      apply filter_In in Hq as [Hq _].
      rewrite <- (map_snd_enum_from _ 0 metadata). apply in_map, Hq.
Qed.

(** C8, amended: selection sees the question through [lower] only, so
    a question whose upper-cased form lower-cases to the same text as
    the question itself selects the same tables in both forms. *)
Theorem select_upper (upper : pystr -> pystr) (query : pystr)
        (metadata : list table) :
  lower (upper query) = lower query ->
  select_relevant_tables lower (upper query) metadata = select_relevant_tables lower query metadata.
Proof.
  intros H.
  assert (Hs : forall t, score lower (upper query) t = score lower query t)
    by (intros t; unfold score, query_words; rewrite H; reflexivity).
  unfold select_relevant_tables.
  assert (Hsc : scored_tables lower (upper query) metadata = scored_tables lower query metadata).
  { induction metadata as [|t r IH]; simpl; [reflexivity|]. now rewrite Hs, IH. }
  rewrite Hsc. reflexivity.
Qed.
End Selection.

(** ** Lines and stripping *)

Lemma lstrip_visible (a b : pystr) :
  visible a -> lstrip (a ++ b) = lstrip a ++ b.
Proof.
  induction 1 as [c t Hc|c t Ht IH]; simpl.
  - rewrite Hc. reflexivity.
  - destruct (isspace c); [exact IH | reflexivity].
Qed.

Lemma rstrip_visible_cons (s : pystr) :
  visible s -> rstrip s <> [].
Proof.
  induction 1 as [c t Hc|c t Ht IH]; simpl.
  - destruct (rstrip t); rewrite ?Hc; discriminate.
  - destruct (rstrip t); [contradiction | discriminate].
Qed.

Lemma rstrip_visible (a b : pystr) :
  visible b -> rstrip (a ++ b) = a ++ rstrip b.
Proof.
  intros Hb. induction a as [|c a IH]; [reflexivity|].
  simpl. rewrite IH.
  pose proof (rstrip_visible_cons b Hb) as Hne.
  destruct (a ++ rstrip b) eqn:E; [|reflexivity].
  apply app_eq_nil in E as [_ E]. contradiction.
Qed.

Lemma rstrip_space_end (s : pystr) (c : N) :
  isspace c = true -> rstrip (s ++ [c]) = rstrip s.
Proof.
  intros Hc. induction s as [|x s IH]; simpl.
  - rewrite Hc. reflexivity.
  - rewrite IH. reflexivity.
Qed.

Lemma visible_app_l (a b : pystr) : visible a -> visible (a ++ b).
Proof. intros H. apply Exists_app. left. exact H. Qed.

Lemma visible_app_r (a b : pystr) : visible b -> visible (a ++ b).
Proof. intros H. apply Exists_app. right. exact H. Qed.

Lemma visible_lstrip (s : pystr) : visible s -> visible (lstrip s).
Proof.
  induction 1 as [c t Hc|c t Ht IH]; simpl.
  - rewrite Hc. left. exact Hc.
  - destruct (isspace c) eqn:E; [exact IH | left; exact E].
Qed.

Lemma lstrip_no_newline (s : pystr) : ~ In nl s -> ~ In nl (lstrip s).
Proof.
  intros H Hin. apply H. destruct (lstrip_suffix s) as [w E].
  rewrite E. apply in_or_app. right. exact Hin.
Qed.

Lemma rstrip_no_newline (s : pystr) : ~ In nl s -> ~ In nl (rstrip s).
Proof.
  intros H Hin. apply H. destruct (rstrip_prefix s) as [w E].
  rewrite E. apply in_or_app. left. exact Hin.
Qed.

Lemma split_lines_app (l rest : pystr) :
  ~ In nl l ->
  split_lines (l ++ nl :: rest) = l :: split_lines rest.
Proof.
  induction l as [|c l IH]; intros H; simpl.
  - reflexivity.
  - destruct (N.eqb_spec c nl) as [->|Hne]; [exfalso; apply H; left; reflexivity|].
    rewrite IH; [reflexivity|]. intros Hin. apply H. right. exact Hin.
Qed.

Lemma split_lines_single (l : pystr) : ~ In nl l -> split_lines l = [l].
Proof.
  induction l as [|c l IH]; intros H; simpl; [reflexivity|].
  destruct (N.eqb_spec c nl) as [->|Hne]; [exfalso; apply H; left; reflexivity|].
  rewrite IH; [reflexivity|]. intros Hin. apply H. right. exact Hin.
Qed.

Lemma split_lines_join (lines : list pystr) :
  lines <> [] -> Forall (fun l => ~ In nl l) lines ->
  split_lines (join [nl] lines) = lines.
Proof.
  intros Hne Hall. induction Hall as [|l r Hl Hr IH]; [contradiction|].
  destruct r as [|l2 r].
  - simpl. apply split_lines_single, Hl.
  - change (join [nl] (l :: l2 :: r)) with (l ++ nl :: join [nl] (l2 :: r)).
    rewrite split_lines_app by exact Hl. rewrite IH by discriminate. reflexivity.
Qed.

Lemma lstrip_unlines (lines : list pystr) :
  visible (hd [] lines) -> lstrip (unlines lines) = unlines (lstrip_first lines).
Proof.
  destruct lines as [|l r]; [reflexivity|]. simpl. intros H.
  unfold unlines. simpl. rewrite <- !app_assoc.
  apply lstrip_visible, H.
Qed.

Lemma visible_unlines (lines : list pystr) :
  visible (last lines []) -> visible (unlines lines).
Proof.
  induction lines as [|l r IH]; [intros H; inversion H|].
  unfold unlines. simpl. destruct r as [|l2 r].
  - intros H. apply visible_app_l, visible_app_l, H.
  - intros H. apply visible_app_r, IH, H.
Qed.

Lemma rstrip_unlines (lines : list pystr) :
  visible (last lines []) ->
  rstrip (unlines lines) = join [nl] (rstrip_last lines).
Proof.
  induction lines as [|l r IH]; [intros H; inversion H|].
  destruct r as [|l2 r]; intros H.
  - unfold unlines. simpl. rewrite app_nil_r. apply rstrip_space_end. reflexivity.
  - change (unlines (l :: l2 :: r)) with ((l ++ [nl]) ++ unlines (l2 :: r)).
    rewrite rstrip_visible by (apply visible_unlines, H).
    rewrite IH by exact H.
    change (rstrip_last (l :: l2 :: r)) with (l :: rstrip_last (l2 :: r)).
    destruct (rstrip_last (l2 :: r)) as [|x y] eqn:E.
    + destruct r; discriminate E.
    + change (join [nl] (l :: x :: y)) with (l ++ [nl] ++ join [nl] (x :: y)).
      rewrite <- app_assoc. reflexivity.
Qed.

Lemma last_lstrip_first (lines : list pystr) :
  visible (hd [] lines) -> visible (last lines []) ->
  visible (last (lstrip_first lines) []).
Proof.
  destruct lines as [|l r]; [intros _ H; exact H|].
  destruct r as [|l2 r]; simpl.
  - intros H _. apply visible_lstrip, H.
  - intros _ H. exact H.
Qed.

Lemma length_trim_ends (lines : list pystr) :
  List.length (trim_ends lines) = List.length lines.
Proof.
  unfold trim_ends.
  assert (H : forall L, List.length (rstrip_last L) = List.length L).
  { induction L as [|l r IH]; [reflexivity|].
    destruct r; [reflexivity|].
    change (rstrip_last (l :: p :: r)) with (l :: rstrip_last (p :: r)).
    cbn [List.length]. rewrite IH. reflexivity. }
  rewrite H. destruct lines; reflexivity.
Qed.

Lemma trim_ends_no_newline (lines : list pystr) :
  Forall (fun l => ~ In nl l) lines ->
  Forall (fun l => ~ In nl l) (trim_ends lines).
Proof.
  unfold trim_ends. intros H.
  assert (H1 : Forall (fun l => ~ In nl l) (lstrip_first lines)).
  { destruct H as [|l r Hl Hr]; simpl; constructor;
      [apply lstrip_no_newline, Hl | exact Hr]. }
  clear H. induction H1 as [|l r Hl Hr IH]; [constructor|].
  destruct r as [|l2 r].
  - simpl. constructor; [apply rstrip_no_newline, Hl | constructor].
  - change (rstrip_last (l :: l2 :: r)) with (l :: rstrip_last (l2 :: r)).
    constructor; [exact Hl | exact IH].
Qed.

(** The lines of a stripped text of newline-terminated lines. *)
Lemma split_lines_strip_unlines (lines : list pystr) :
  lines <> [] ->
  Forall (fun l => ~ In nl l) lines ->
  visible (hd [] lines) -> visible (last lines []) ->
  split_lines (strip (unlines lines)) = trim_ends lines.
Proof.
  intros Hne Hnl Hhd Hlast. unfold strip.
  rewrite lstrip_unlines by exact Hhd.
  rewrite rstrip_unlines by (apply last_lstrip_first; assumption).
  apply split_lines_join.
  - intros E. apply (f_equal (@List.length pystr)) in E.
    fold (trim_ends lines) in E. rewrite length_trim_ends in E.
    destruct lines; [contradiction | discriminate E].
  - apply trim_ends_no_newline, Hnl.
Qed.

(** ** Answer formatting *)

Lemma uint_digits_no_newline (d : uint) : ~ In nl (uint_digits d).
Proof.
  induction d; simpl; try tauto;
    intros [H|H]; try discriminate H; contradiction.
Qed.

Lemma In_py_no_newline (s : pystr) :
  forallb (fun c => negb (c =? nl)%N) s = true -> ~ In nl s.
Proof.
  intros H Hin. rewrite forallb_forall in H. specialize (H _ Hin).
  rewrite N.eqb_refl in H. discriminate H.
Qed.

Lemma rank_prefix_no_newline (i : nat) : ~ In nl (rank_prefix i).
Proof.
  unfold rank_prefix. intros H.
  apply in_app_or in H as [H|H]; [revert H; apply In_py_no_newline; reflexivity|].
  apply in_app_or in H as [H|H]; [exact (uint_digits_no_newline _ H)|].
  revert H; apply In_py_no_newline; reflexivity.
Qed.

Lemma In_join (sep : pystr) (l : list pystr) (x : N) :
  In x (join sep l) -> In x sep \/ exists s, In s l /\ In x s.
Proof.
  induction l as [|a r IH]; [intros []|].
  destruct r as [|b r].
  - simpl. intros H. right. exists a. split; [left; reflexivity | exact H].
  - change (join sep (a :: b :: r)) with (a ++ sep ++ join sep (b :: r)).
    intros H. apply in_app_or in H as [H|H].
    + right. exists a. split; [left; reflexivity | exact H].
    + apply in_app_or in H as [H|H]; [left; exact H|].
      destruct (IH H) as [Hs|(s & Hs & Hx)]; [left; exact Hs|].
      right. exists s. split; [right; exact Hs | exact Hx].
Qed.

Lemma visible_join (sep a : pystr) (r : list pystr) :
  visible a -> visible (join sep (a :: r)).
Proof.
  intros H. destruct r as [|b r]; [exact H|].
  change (join sep (a :: b :: r)) with (a ++ sep ++ join sep (b :: r)).
  apply visible_app_l, H.
Qed.

Section Rendering.
Variable lower : pystr -> pystr.
Variable value : Type.
Variable fmt : value -> pystr.

Lemma frame_rows_unlines (ranking : bool) (cols : list pystr) (i : nat)
      (rows : list (list value)) :
  frame_rows fmt ranking cols i rows
  = unlines (row_lines fmt ranking cols i rows).
Proof.
  revert i. induction rows as [|row r IH]; intros i; [reflexivity|].
  unfold unlines. cbn [frame_rows row_lines map List.concat].
  rewrite IH. unfold row_text, unlines.
  destruct ranking; rewrite <- ?app_assoc; reflexivity.
Qed.

Lemma row_lines_unranked (cols : list pystr) (i : nat) (rows : list (list value)) :
  row_lines fmt false cols i rows = map (row_line fmt cols) rows.
Proof.
  revert i. induction rows as [|row r IH]; intros i; simpl; [reflexivity|].
  now rewrite IH.
Qed.

Lemma length_row_lines (ranking : bool) (cols : list pystr) (i : nat)
      (rows : list (list value)) :
  List.length (row_lines fmt ranking cols i rows) = List.length rows.
Proof.
  revert i. induction rows as [|row r IH]; intros i; simpl; [reflexivity|].
  now rewrite IH.
Qed.

Lemma row_line_no_newline (cols : list pystr) (row : list value) :
  Forall (fun c => ~ In nl c) cols ->
  Forall (fun v => ~ In nl (fmt v)) row ->
  ~ In nl (row_line fmt cols row).
Proof.
  intros Hc Hv H. unfold row_line in H.
  apply In_join in H as [H|(s & Hs & H)].
  - revert H. apply In_py_no_newline. reflexivity.
  - apply in_map_iff in Hs as ([c v] & <- & Hcv). cbn [fst snd] in H.
    rewrite Forall_forall in Hc, Hv.
    apply in_app_or in H as [H|H]; [exact (Hc c (in_combine_l _ _ _ _ Hcv) H)|].
    apply in_app_or in H as [H|H]; [|exact (Hv v (in_combine_r _ _ _ _ Hcv) H)].
    revert H. apply In_py_no_newline. reflexivity.
Qed.

(** A row with a value under a column gives a text with a colon. *)
Lemma row_line_visible (cols : list pystr) (row : list value) :
  cols <> [] -> row <> [] -> visible (row_line fmt cols row).
Proof.
  destruct cols as [|c cols]; [contradiction|].
  destruct row as [|v row]; [contradiction|]. intros _ _.
  unfold row_line. cbn [combine map fst snd].
  apply visible_join. apply visible_app_r, visible_app_l.
  left. reflexivity.
Qed.

Lemma row_lines_no_newline (ranking : bool) (cols : list pystr) (i : nat)
      (rows : list (list value)) :
  Forall (fun c => ~ In nl c) cols ->
  Forall (Forall (fun v => ~ In nl (fmt v))) rows ->
  Forall (fun l => ~ In nl l) (row_lines fmt ranking cols i rows).
Proof.
  intros Hc Hr. revert i. induction Hr as [|row r Hrow Hr IH]; intros i; cbn [row_lines].
  - constructor.
  - constructor; [|apply IH].
    pose proof (row_line_no_newline cols row Hc Hrow) as Hl.
    destruct ranking; [|exact Hl].
    intros H. apply in_app_or in H as [H|H]; [exact (rank_prefix_no_newline _ H) | exact (Hl H)].
Qed.

Lemma row_lines_visible (ranking : bool) (cols : list pystr) (i : nat)
      (rows : list (list value)) :
  cols <> [] -> Forall (fun row => row <> []) rows ->
  Forall visible (row_lines fmt ranking cols i rows).
Proof.
  intros Hc Hr. revert i. induction Hr as [|row r Hrow Hr IH]; intros i; cbn [row_lines].
  - constructor.
  - constructor; [|apply IH].
    pose proof (row_line_visible cols row Hc Hrow) as Hl.
    destruct ranking; [apply visible_app_r|]; exact Hl.
Qed.

Lemma Forall_hd_last (P : pystr -> Prop) (l : list pystr) :
  l <> [] -> Forall P l -> P (hd [] l) /\ P (last l []).
Proof.
  intros Hne H. split.
  - destruct H; [contradiction | assumption].
  - induction H as [|x r Hx Hr IH]; [contradiction|].
    destruct r; [exact Hx | apply IH; discriminate].
Qed.

(** With the rank prefix, stripping leaves the prefix of every line in
    place. *)
Lemma ranked_lines_prefix (cols : list pystr) (rows : list (list value)) :
  Forall (fun row => visible (row_line fmt cols row)) rows ->
  forall k i, i < List.length rows ->
  exists y, nth i (trim_ends (row_lines fmt true cols k rows)) [] = rank_prefix (k + i) ++ y.
Proof.
  intros Hv. unfold trim_ends.
  assert (Hl : forall k, lstrip_first (row_lines fmt true cols k rows)
                         = row_lines fmt true cols k rows).
  { intros k. destruct rows as [|row r]; [reflexivity|]. cbn [row_lines lstrip_first]. reflexivity. }
  intros k i. rewrite Hl. clear Hl. revert k i.
  induction Hv as [|row r Hrow Hr IH]; intros k i Hi; [simpl in Hi; lia|].
  destruct r as [|row2 r].
  - destruct i as [|i]; [|simpl in Hi; lia].
    cbn [row_lines rstrip_last nth]. rewrite Nat.add_0_r, rstrip_visible by exact Hrow.
    eexists; reflexivity.
  - change (rstrip_last (row_lines fmt true cols k (row :: row2 :: r)))
      with ((rank_prefix k ++ row_line fmt cols row)
              :: rstrip_last (row_lines fmt true cols (S k) (row2 :: r))).
    destruct i as [|i].
    + rewrite Nat.add_0_r. eexists; reflexivity.
    + simpl in Hi. cbn [nth]. replace (k + S i) with (S k + i) by lia.
      apply IH. simpl. lia.
Qed.

(** C5, amended: with at least one column, at least one value in every
    row and no newline in a column name or in a value's text, the
    answer for a non-empty row sequence has one line per row; these
    lines are the rows' texts, each behind [Rank <i>: ] (rows counted
    from 1) when the question is a ranking query and without addition
    when it is not, joined by newlines, with the white space at both
    ends of the whole text removed. *)
Theorem frame_answer_lines (query : pystr) (rows : list (list value))
        (cols : list pystr) :
  rows <> [] -> cols <> [] ->
  Forall (fun row => row <> []) rows ->
  Forall (fun c => ~ In nl c) cols ->
  Forall (Forall (fun v => ~ In nl (fmt v))) rows ->
  let ranking := is_ranking_query lower query in
  let out := split_lines (frame_answer lower fmt query rows cols) in
  out = trim_ends (row_lines fmt ranking cols 1 rows)
  /\ List.length out = List.length rows
  /\ (ranking = true ->
      forall i, i < List.length rows ->
                starts_with (rank_prefix (S i)) (nth i out []) = true)
  /\ (ranking = false -> out = trim_ends (map (row_line fmt cols) rows)).
Proof.
  intros Hrows Hcols Hne Hc Hv ranking out.
  assert (E : out = trim_ends (row_lines fmt ranking cols 1 rows)).
  { subst out. unfold frame_answer.
    destruct rows as [|row r] eqn:Er; [contradiction|]. rewrite <- Er in *.
    fold ranking. rewrite frame_rows_unlines.
    assert (Hl : row_lines fmt ranking cols 1 rows <> []) by (rewrite Er; discriminate).
    destruct (Forall_hd_last visible _ Hl (row_lines_visible ranking cols 1 rows Hcols Hne)) as [Hh Hla].
    apply split_lines_strip_unlines; try assumption.
    apply row_lines_no_newline; assumption. }
  split; [exact E|]. split; [|split].
  - rewrite E, length_trim_ends. apply length_row_lines.
  - intros Hr i Hi. rewrite E, Hr.
    assert (Hvis : Forall (fun row => visible (row_line fmt cols row)) rows).
    { eapply Forall_impl; [|exact Hne]. intros row. apply row_line_visible, Hcols. }
    destruct (ranked_lines_prefix cols rows Hvis 1 i Hi) as [y ->].
    unfold starts_with.
    assert (Hp : strip_prefix (rank_prefix (S i)) (rank_prefix (1 + i) ++ y) = Some y)
      by (apply strip_prefix_spec; reflexivity).
    rewrite Hp. reflexivity.
  - intros Hr. rewrite E, Hr, row_lines_unranked. reflexivity.
Qed.

(** C6: on an empty row sequence the answer is the fixed text, for
    every question, ranking or not, and every column list. *)
Theorem frame_answer_no_rows (query : pystr) (cols : list pystr) :
  frame_answer lower fmt query [] cols = py "No results found.".
Proof. reflexivity. Qed.

Lemma map_fst_combine (A B : Type) (l : list A) (l' : list B) :
  map fst (combine l l') = firstn (Nat.min (List.length l) (List.length l')) l.
Proof.
  revert l'. induction l as [|x l IH]; intros [|y l']; simpl; try reflexivity.
  now rewrite IH.
Qed.

Lemma map_snd_combine (A B : Type) (l : list A) (l' : list B) :
  map snd (combine l l') = firstn (Nat.min (List.length l) (List.length l')) l'.
Proof.
  revert l'. induction l as [|x l IH]; intros [|y l']; simpl; try reflexivity.
  now rewrite IH.
Qed.

(** C10: a row and a column list of different lengths are paired up to
    the shorter of the two.  With [m] the smaller length, [zip] gives
    [m] pairs; the line is the line of the two lists cut to [m], so the
    surplus names or values leave no trace in it; and the line is the
    texts [column: value], joined by a comma and a space, of [m] pairs
    whose columns are the first [m] column names and whose values are
    the first [m] values of the row, in their order.  Nothing fails and
    nothing is padded. *)
Theorem row_line_shorter (cols : list pystr) (row : list value) :
  let m := Nat.min (List.length cols) (List.length row) in
  List.length (combine cols row) = m
  /\ row_line fmt cols row = row_line fmt (firstn m cols) (firstn m row)
  /\ exists pairs : list (pystr * value),
       List.length pairs = m
       /\ map fst pairs = firstn m cols
       /\ map snd pairs = firstn m row
       /\ row_line fmt cols row
          = join (py ", ")
                 (map (fun cv => fst cv ++ py ": " ++ fmt (snd cv)) pairs).
Proof.
  intros m. split; [apply length_combine|]. split.
  - unfold row_line. rewrite <- combine_firstn.
    rewrite firstn_all2; [reflexivity|].
    rewrite length_combine. apply le_n.
  - exists (combine cols row). split; [apply length_combine|].
    split; [apply map_fst_combine|]. split; [apply map_snd_combine|].
    reflexivity.
Qed.
End Rendering.

(** ** The Latin-1 case tables on ASCII *)

Lemma lower_upper_cp_ascii (c : N) :
  (c < 128)%N -> map lower_cp (upper_cp c) = [lower_cp c].
Proof.
  intros Hc. unfold upper_cp, lower_cp.
  repeat match goal with
         | |- context [(?a <=? ?b)%N] => destruct (N.leb_spec a b)
         | |- context [(?a =? ?b)%N] => destruct (N.eqb_spec a b)
         end; cbn [andb negb map]; try lia;
  repeat match goal with
         | |- context [(?a <=? ?b)%N] => destruct (N.leb_spec a b)
         | |- context [(?a =? ?b)%N] => destruct (N.eqb_spec a b)
         end; cbn [andb negb map]; try lia; f_equal; lia.
Qed.

(** On an ASCII text, upper-casing and then lower-casing is
    lower-casing. *)
Lemma lower_upper_ascii (s : pystr) :
  Forall (fun c => (c < 128)%N) s ->
  lower_latin1 (upper_latin1 s) = lower_latin1 s.
Proof.
  unfold lower_latin1, upper_latin1.
  induction 1 as [|c t Hc Ht IH]; [reflexivity|].
  cbn [flat_map map]. rewrite map_app, IH, (lower_upper_cp_ascii c Hc). reflexivity.
Qed.

(** ** The claims on the sample inputs *)

(** Three column names against two values, and one column name against
    two values: the texts of the lines. *)
Lemma row_line_surplus_columns :
  row_line (fun v : pystr => v) [py "a"; py "b"; py "c"] [py "1"; py "2"]
  = py "a: 1, b: 2".
Proof. reflexivity. Qed.

Lemma row_line_surplus_values :
  row_line (fun v : pystr => v) [py "a"] [py "1"; py "2"] = py "a: 1".
Proof. reflexivity. Qed.

Lemma select_fallback_witness :
  Forall (fun t => score lower_latin1 unrelated_question t = 0) sample_metadata
  /\ select_relevant_tables lower_latin1 unrelated_question sample_metadata
     = firstn 3 sample_metadata.
Proof.
  assert (H : Forall (fun t => score lower_latin1 unrelated_question t = 0)
                     sample_metadata)
    by (repeat constructor).
  split; [exact H|].
  exact (proj1 (select_fallback lower_latin1 unrelated_question sample_metadata H)).
Defined.

Lemma select_positive_descending_stable_witness :
  Exists (fun t => 0 < score lower_latin1 sample_question t) sample_metadata
  /\ exists ps : list (nat * table),
      select_relevant_tables lower_latin1 sample_question sample_metadata = map snd ps
      /\ Forall (fun p => nth_error sample_metadata (fst p) = Some (snd p)) ps
      /\ Forall (fun t => 0 < score lower_latin1 sample_question t)
                (select_relevant_tables lower_latin1 sample_question sample_metadata)
      /\ StronglySorted
           (fun t t' => score lower_latin1 sample_question t'
                        <= score lower_latin1 sample_question t)
           (select_relevant_tables lower_latin1 sample_question sample_metadata)
      /\ StronglySorted
           (fun p p' => score lower_latin1 sample_question (snd p)
                        = score lower_latin1 sample_question (snd p') ->
                        fst p < fst p') ps.
Proof.
  assert (H : Exists (fun t => 0 < score lower_latin1 sample_question t)
                     sample_metadata)
    by (apply Exists_cons_hd; vm_compute; lia).
  split; [exact H|].
  exact (select_positive_descending_stable lower_latin1 sample_question
           sample_metadata H).
Defined.

(** C8, as stated, fails: the question [strasse] selects the table with
    that column; its upper-cased form matches no table and gets the
    fallback. *)
Lemma select_upper_differs :
  select_relevant_tables lower_latin1 (upper_latin1 strasse) german_metadata
  <> select_relevant_tables lower_latin1 strasse german_metadata.
Proof. vm_compute. discriminate. Qed.

Lemma select_upper_witness :
  lower_latin1 (upper_latin1 sample_question) = lower_latin1 sample_question
  /\ select_relevant_tables lower_latin1 (upper_latin1 sample_question) sample_metadata
     = select_relevant_tables lower_latin1 sample_question sample_metadata.
Proof.
  assert (H : lower_latin1 (upper_latin1 sample_question)
              = lower_latin1 sample_question) by reflexivity.
  split; [exact H|].
  exact (select_upper lower_latin1 upper_latin1 sample_question sample_metadata H).
Defined.

(** C5, as stated, fails: one row whose value holds a line break gives
    two lines. *)
Lemma frame_answer_two_lines_one_row :
  note_rows <> []
  /\ List.length (split_lines
                    (frame_answer lower_latin1 (fun v : pystr => v)
                                  unrelated_question note_rows note_cols))
     <> List.length note_rows.
Proof. split; [discriminate | vm_compute; discriminate]. Qed.

Lemma frame_answer_lines_witness :
  (sample_rows <> [] /\ sample_cols <> []
   /\ Forall (fun row : list pystr => row <> []) sample_rows
   /\ Forall (fun c => ~ In nl c) sample_cols
   /\ Forall (Forall (fun v : pystr => ~ In nl v)) sample_rows)
  /\ List.length (split_lines
                    (frame_answer lower_latin1 (fun v : pystr => v)
                                  sample_question sample_rows sample_cols))
     = List.length sample_rows
  /\ starts_with (py "Rank 2: ")
       (nth 1 (split_lines
                 (frame_answer lower_latin1 (fun v : pystr => v)
                               sample_question sample_rows sample_cols)) [])
     = true.
Proof.
  assert (H1 : sample_rows <> []) by discriminate.
  assert (H2 : sample_cols <> []) by discriminate.
  assert (H3 : Forall (fun row : list pystr => row <> []) sample_rows)
    by (repeat constructor; discriminate).
  assert (H4 : Forall (fun c => ~ In nl c) sample_cols)
    by (repeat constructor; apply In_py_no_newline; reflexivity).
  assert (H5 : Forall (Forall (fun v : pystr => ~ In nl v)) sample_rows)
    by (repeat constructor; apply In_py_no_newline; reflexivity).
  pose proof (frame_answer_lines lower_latin1 pystr (fun v : pystr => v)
                sample_question sample_rows sample_cols H1 H2 H3 H4 H5) as H.
  cbv zeta in H. destruct H as (_ & Hlen & Hrank & _).
  split; [repeat split; assumption|].
  split; [exact Hlen|].
  exact (Hrank eq_refl 1 (le_n 2)).
Defined.


(** * Further properties *)

(** ** More on the stable sort *)

Lemma insert_desc_perm (A : Type) (key : A -> nat) (x : A) (l : list A) :
  Permutation (insert_desc key x l) (x :: l).
Proof.
  induction l as [|y r IH]; simpl; [apply Permutation_refl|].
  destruct (key y <=? key x); [apply Permutation_refl|].
  apply perm_trans with (y :: x :: r); [apply perm_skip, IH | apply perm_swap].
Qed.

Lemma sort_desc_perm (A : Type) (key : A -> nat) (l : list A) :
  Permutation (sort_desc key l) l.
Proof.
  induction l as [|x r IH]; simpl; [apply perm_nil|].
  apply perm_trans with (x :: sort_desc key r);
    [apply insert_desc_perm | apply perm_skip, IH].
Qed.

Lemma StronglySorted_app_inv (A : Type) (R : A -> A -> Prop) (a b : list A) :
  StronglySorted R (a ++ b) ->
  forall x y, In x a -> In y b -> R x y.
Proof.
  induction a as [|z a IH]; intros H x y Hx Hy; [destruct Hx|].
  simpl in H. apply StronglySorted_inv in H as [Hs Hz].
  destruct Hx as [->|Hx].
  - rewrite Forall_forall in Hz. apply Hz, in_or_app. right. exact Hy.
  - exact (IH Hs x y Hx Hy).
Qed.

(** ** More on words *)

Lemma is_word_snoc (cur : pystr) (c : N) :
  cur = [] \/ is_word cur = true -> isspace c = false ->
  is_word (cur ++ [c]) = true.
Proof.
  intros Hcur Hc.
  assert (H : forallb (fun c => negb (isspace c)) (cur ++ [c]) = true).
  { rewrite forallb_app. simpl. rewrite Hc. simpl. rewrite andb_true_r.
    destruct Hcur as [->|Hw]; [reflexivity|].
    destruct cur; [discriminate Hw | exact Hw]. }
  destruct cur; exact H.
Qed.

Lemma split_from_words (s cur : pystr) :
  cur = [] \/ is_word cur = true ->
  Forall (fun w => is_word w = true) (split_from cur s).
Proof.
  revert cur. induction s as [|c t IH]; intros cur Hcur; simpl.
  - destruct Hcur as [->|Hw]; [constructor|].
    destruct cur; [constructor | constructor; [exact Hw | constructor]].
  - destruct (isspace c) eqn:Hc.
    + apply Forall_app. split; [|apply IH; left; reflexivity].
      destruct Hcur as [->|Hw]; [constructor|].
      destruct cur; [constructor | constructor; [exact Hw | constructor]].
    + apply IH. right. apply is_word_snoc; assumption.
Qed.

(** Every element of [s.split()] is a non-empty text without white
    space. *)
Lemma split_words (s : pystr) : Forall (fun w => is_word w = true) (split s).
Proof. apply split_from_words. left. reflexivity. Qed.

Lemma mem_In (w : pystr) (l : list pystr) : mem w l = true <-> In w l.
Proof.
  unfold mem. destruct (in_dec pystr_eq_dec w l); split; auto; discriminate.
Qed.

Lemma mem_ext (w : pystr) (l l' : list pystr) :
  (In w l <-> In w l') -> mem w l = mem w l'.
Proof.
  intros H. destruct (mem w l) eqn:E; symmetry.
  - apply mem_In, H, mem_In, E.
  - destruct (mem w l') eqn:E'; [|reflexivity].
    apply mem_In, H, mem_In in E'. congruence.
Qed.

Section SelectionMore.
Variable lower : pystr -> pystr.

Lemma length_scored_tables (query : pystr) (metadata : list table) :
  List.length (scored_tables lower query metadata)
  = List.length (filter (fun t => 0 <? score lower query t) metadata).
Proof.
  induction metadata as [|t r IH]; simpl; [reflexivity|].
  destruct (0 <? score lower query t); simpl; now rewrite IH.
Qed.

(** X1: the number of tables returned is the number of tables of
    positive score, or of all tables when none scores, cut to three. *)
Theorem select_length (query : pystr) (metadata : list table) :
  let positive := List.length (filter (fun t => 0 <? score lower query t) metadata) in
  List.length (select_relevant_tables lower query metadata)
  = Nat.min 3 (if positive =? 0 then List.length metadata else positive).
Proof.
  intros positive. unfold select_relevant_tables.
  pose proof (length_scored_tables query metadata) as Hl. fold positive in Hl.
  destruct (scored_tables lower query metadata) as [|p l] eqn:E.
  - simpl in Hl. rewrite <- Hl. cbn [Nat.eqb]. apply length_firstn.
  - rewrite length_map, length_firstn, length_sort_desc, Hl.
    destruct positive; [discriminate Hl | reflexivity].
Qed.

(** X2: with at least one table in the metadata, at least one table is
    returned, whatever the question. *)
Theorem select_nonempty (query : pystr) (metadata : list table) :
  metadata <> [] -> select_relevant_tables lower query metadata <> [].
Proof.
  intros Hne E. apply (f_equal (@List.length table)) in E.
  unfold select_relevant_tables in E.
  destruct (scored_tables lower query metadata) as [|p l].
  - destruct metadata as [|t r]; [contradiction | discriminate E].
  - rewrite length_map, length_firstn, length_sort_desc in E. discriminate E.
Qed.

(** X3: when some table scores above 0, the returned tables are the
    best: the tables of positive score, with their positions, split
    into the returned ones and the others, and none of the others
    scores more than a returned one. *)
Theorem select_top (query : pystr) (metadata : list table) :
  Exists (fun t => 0 < score lower query t) metadata ->
  exists ps rest : list (nat * table),
    select_relevant_tables lower query metadata = map snd ps
    /\ Permutation (ps ++ rest)
         (filter (fun p : nat * table => 0 <? score lower query (snd p))
                 (enum_from 0 metadata))
    /\ forall p r, In p ps -> In r rest ->
                   score lower query (snd r) <= score lower query (snd p).
Proof.
  intros Hex.
  rewrite (select_scored lower _ _ (scored_tables_cons lower _ _ Hex)).
  set (key := fun p : nat * table => score lower query (snd p)).
  set (E := filter (fun p : nat * table => 0 <? key p) (enum_from 0 metadata)).
  exists (firstn 3 (sort_desc key E)), (skipn 3 (sort_desc key E)).
  split; [reflexivity|]. split.
  - rewrite firstn_skipn. apply sort_desc_perm.
  - intros p r Hp Hr.
    assert (HS : StronglySorted (precedes key fst)
                   (firstn 3 (sort_desc key E) ++ skipn 3 (sort_desc key E))).
    { rewrite firstn_skipn. apply sort_desc_sorted.
      apply StronglySorted_filter_pos, enum_from_sorted. }
    pose proof (StronglySorted_app_inv _ _ _ _ HS p r Hp Hr) as H.
    unfold precedes, key in H. unfold key. lia.
Qed.

(** X4: metadata given as a single table: that table is returned for
    every question. *)
Theorem select_single_table (query : pystr) (t : table) :
  select_relevant_tables lower query (normalize_metadata (MetaDict t)) = [t].
Proof.
  unfold select_relevant_tables. simpl.
  destruct (0 <? score lower query t); reflexivity.
Qed.

Lemma score_same_words (q1 q2 : pystr) (t : table) :
  (forall w, In w (split (lower q1)) <-> In w (split (lower q2))) ->
  score lower q1 t = score lower q2 t.
Proof.
  intros H. unfold score, intersection. apply Permutation_length.
  assert (P : Permutation (query_words lower q1) (query_words lower q2)).
  { unfold query_words, pyset. apply NoDup_Permutation; try apply NoDup_nodup.
    intros w. rewrite !nodup_In. apply H. }
  clear H. induction P as [|x l l' P IH|x y l|l l' l'' P1 IH1 P2 IH2]; simpl.
  - constructor.
  - destruct (mem x (table_keywords lower t)); [apply perm_skip|]; exact IH.
  - destruct (mem x (table_keywords lower t)), (mem y (table_keywords lower t));
      try apply Permutation_refl. apply perm_swap.
  - exact (perm_trans IH1 IH2).
Qed.

(** X5: selection sees the question as the set of its lower-cased
    words: two questions with the same words, in any order and any
    number of times, select the same tables. *)
Theorem select_same_words (q1 q2 : pystr) (metadata : list table) :
  (forall w, In w (split (lower q1)) <-> In w (split (lower q2))) ->
  select_relevant_tables lower q1 metadata
  = select_relevant_tables lower q2 metadata.
Proof.
  intros H. unfold select_relevant_tables.
  assert (E : scored_tables lower q1 metadata = scored_tables lower q2 metadata).
  { induction metadata as [|t r IH]; simpl; [reflexivity|].
    rewrite (score_same_words q1 q2 t H), IH. reflexivity. }
  rewrite E. reflexivity.
Qed.

(** X6: a score is at most the number of distinct words of the question
    and at most the number of distinct keywords of the table. *)
Theorem score_bounds (query : pystr) (t : table) :
  score lower query t <= List.length (query_words lower query)
  /\ score lower query t <= List.length (table_keywords lower t).
Proof.
  unfold score, intersection. split; [apply filter_length_le|].
  apply NoDup_incl_length.
  - apply NoDup_filter. unfold query_words, pyset. apply NoDup_nodup.
  - intros w Hw. apply filter_In in Hw as [_ Hw]. apply mem_In, Hw.
Qed.

Lemma column_names_app (a b : list column_entry) :
  column_names lower (a ++ b) = column_names lower a ++ column_names lower b.
Proof.
  induction a as [|c a IH]; [reflexivity|].
  destruct c as [[n|] ty|n|]; simpl; rewrite IH; reflexivity.
Qed.

(** X7: a column entry that gives no keyword (an entry of another
    shape, a dictionary without name) or whose lower-cased name is not
    a single word (it is empty or holds white space) never adds to a
    score: the table scores as it does without the entry. *)
Theorem score_ignores_column (query : pystr) (name descr : option pystr)
        (before after : list column_entry) (c : column_entry) :
  Forall (fun k => is_word k = false) (column_names lower [c]) ->
  score lower query (mkTable name descr (before ++ c :: after))
  = score lower query (mkTable name descr (before ++ after)).
Proof.
  intros Hc. unfold score, intersection. f_equal.
  apply filter_ext_in. intros w Hw.
  assert (Hword : is_word w = true).
  { unfold query_words, pyset in Hw. rewrite nodup_In in Hw.
    pose proof (split_words (lower query)) as Hs.
    rewrite Forall_forall in Hs. apply Hs, Hw. }
  apply mem_ext. unfold table_keywords, pyset. simpl.
  rewrite !nodup_In.
  change (c :: after) with ([c] ++ after).
  rewrite !column_names_app, !in_app_iff.
  assert (Hn : ~ In w (column_names lower [c])).
  { intros Hin. rewrite Forall_forall in Hc. specialize (Hc _ Hin). congruence. }
  tauto.
Qed.
End SelectionMore.

(** ** More on stripping *)

Lemma lstrip_all_space (s : pystr) :
  Forall (fun c => isspace c = true) s -> lstrip s = [].
Proof. induction 1 as [|c t Hc Ht IH]; simpl; [reflexivity | now rewrite Hc]. Qed.

Lemma strip_all_space (s : pystr) :
  Forall (fun c => isspace c = true) s -> strip s = [].
Proof. intros H. unfold strip. now rewrite (lstrip_all_space s H). Qed.

Lemma rstrip_all_space (s : pystr) :
  Forall (fun c => isspace c = true) s -> rstrip s = [].
Proof.
  induction 1 as [|c t Hc Ht IH]; simpl; [reflexivity | now rewrite IH, Hc].
Qed.

Lemma rstrip_app_spaces (x b : pystr) :
  Forall (fun c => isspace c = true) b -> rstrip (x ++ b) = rstrip x.
Proof.
  intros Hb. induction x as [|c x IH]; simpl.
  - apply rstrip_all_space, Hb.
  - rewrite IH. reflexivity.
Qed.

Lemma lstrip_app_head (a y : pystr) (c : N) :
  isspace c = false -> lstrip (a ++ c :: y) = lstrip a ++ c :: y.
Proof.
  intros Hc. induction a as [|x a IH]; simpl.
  - rewrite Hc. reflexivity.
  - destruct (isspace x); [exact IH | reflexivity].
Qed.

Lemma lstrip_idem (s : pystr) : lstrip (lstrip s) = lstrip s.
Proof. apply lstrip_fixed, lstrip_head. Qed.

Lemma strip_lstrip (s : pystr) : strip (lstrip s) = strip s.
Proof. unfold strip. now rewrite lstrip_idem. Qed.

Lemma strip_no_outer_space (s : pystr) : no_outer_space (strip s).
Proof.
  unfold no_outer_space, strip. split.
  - pose proof (lstrip_head s) as H. destruct (lstrip s) as [|c t]; [exact I|].
    destruct (rstrip_head c t H) as [r ->]. exact H.
  - rewrite rstrip_rev, rev_involutive. apply lstrip_head.
Qed.

(** ** More on sanitization *)

Lemma strip_prefix_fence_other (c : N) (s : pystr) :
  c <> backtick -> strip_prefix fence (c :: s) = None.
Proof.
  intros Hc. unfold fence. cbn [strip_prefix].
  destruct (N.eqb_spec backtick c) as [E|_]; [congruence | reflexivity].
Qed.

Lemma find_after_fence_skip (m b : pystr) :
  Forall (fun c => c <> backtick) m ->
  find_after fence (m ++ fence ++ b) = Some b.
Proof.
  induction 1 as [|c m Hc Hm IH].
  - assert (E : strip_prefix fence (fence ++ b) = Some b)
      by (apply strip_prefix_spec; reflexivity).
    destruct b; simpl in *; rewrite ?E; reflexivity.
  - change ((c :: m) ++ fence ++ b) with (c :: (m ++ fence ++ b)).
    cbn [find_after]. rewrite (strip_prefix_fence_other c _ Hc). exact IH.
Qed.

Lemma re_sub_block (a m b : pystr) :
  Forall (fun c => c <> backtick) a ->
  Forall (fun c => c <> backtick) m ->
  re_sub_fences (a ++ fence ++ m ++ fence ++ b) = a ++ re_sub_fences b.
Proof.
  intros Ha Hm. induction Ha as [|c a Hc Ha IH].
  - change ([] ++ fence ++ m ++ fence ++ b)
      with (backtick :: ticks 2 ++ m ++ fence ++ b).
    rewrite re_sub_cons.
    assert (E : match_fence (backtick :: ticks 2 ++ m ++ fence ++ b) = Some b).
    { unfold match_fence.
      assert (P : strip_prefix fence (backtick :: ticks 2 ++ m ++ fence ++ b)
                  = Some (m ++ fence ++ b))
        by (apply strip_prefix_spec; reflexivity).
      rewrite P. apply find_after_fence_skip, Hm. }
    rewrite E. reflexivity.
  - change ((c :: a) ++ fence ++ m ++ fence ++ b)
      with (c :: (a ++ fence ++ m ++ fence ++ b)).
    rewrite re_sub_cons. unfold match_fence.
    rewrite (strip_prefix_fence_other c _ Hc), IH. reflexivity.
Qed.

(** X8: a fenced region is deleted with what it holds, and the text in
    front of it is kept: with no backtick in [a] and in [m], the
    substitution turns [a], fence, [m], fence, [b] into [a] followed by
    what it makes of [b]. *)
Theorem re_sub_drops_block (a m b : pystr) :
  Forall (fun c => c <> backtick) a ->
  Forall (fun c => c <> backtick) m ->
  re_sub_fences (a ++ fence ++ m ++ fence ++ b) = a ++ re_sub_fences b.
Proof. exact (re_sub_block a m b). Qed.

Lemma Forall_lstrip (P : N -> Prop) (s : pystr) :
  Forall P s -> Forall P (lstrip s).
Proof.
  induction 1 as [|c t Hc Ht IH]; simpl; [constructor|].
  destruct (isspace c); [exact IH | constructor; assumption].
Qed.

(** X9: a response made of a text without backtick, one fenced block
    without backtick inside, and white space behind it is sanitized to
    the stripped text in front of the block; the content of the block is
    lost.  With nothing in front, the result is empty. *)
Theorem sanitize_prose_then_block (a m b : pystr) :
  Forall (fun c => c <> backtick) a ->
  Forall (fun c => c <> backtick) m ->
  Forall (fun c => isspace c = true) b ->
  sanitize (a ++ fence ++ m ++ fence ++ b) = strip a.
Proof.
  intros Ha Hm Hb. unfold sanitize.
  assert (E : strip (a ++ fence ++ m ++ fence ++ b)
              = lstrip a ++ fence ++ m ++ fence ++ []).
  { unfold strip.
    change (a ++ fence ++ m ++ fence ++ b)
      with (a ++ backtick :: (ticks 2 ++ m ++ fence ++ b)).
    rewrite lstrip_app_head by reflexivity.
    change (lstrip a ++ backtick :: ticks 2 ++ m ++ fence ++ b)
      with (lstrip a ++ fence ++ m ++ (ticks 2 ++ [backtick]) ++ b).
    rewrite <- (app_assoc (ticks 2)), !app_assoc.
    rewrite rstrip_app_spaces by exact Hb.
    rewrite rstrip_visible by (left; reflexivity).
    rewrite app_nil_r, <- !app_assoc. reflexivity. }
  rewrite E, re_sub_block by (try apply Forall_lstrip; assumption).
  rewrite re_sub_nil, app_nil_r. apply strip_lstrip.
Qed.

(** X10: a response without fenced region is only stripped of the white
    space at its ends. *)
Theorem sanitize_plain (s : pystr) :
  (forall a m b, s <> a ++ fence ++ m ++ fence ++ b) ->
  sanitize s = strip s.
Proof.
  intros H. unfold sanitize.
  assert (Hs : has_block s = false).
  { destruct (has_block s) eqn:E; [|reflexivity].
    apply has_block_spec in E as (a & m & b & E). destruct (H a m b E). }
  rewrite re_sub_fixed by (apply strip_no_block, Hs). apply strip_idem.
Qed.

(** X11: the sanitized query neither starts nor ends with white
    space. *)
Theorem sanitize_no_outer_space (response : pystr) :
  no_outer_space (sanitize response).
Proof. unfold sanitize. apply strip_no_outer_space. Qed.

(** ** More on intent detection and formatting *)

Lemma Occurs_context (p s a b : pystr) : Occurs p s -> Occurs p (a ++ s ++ b).
Proof.
  intros (x & y & ->). exists (a ++ x), (y ++ b). now rewrite <- !app_assoc.
Qed.

(** X12: the ranking flag is raised by a ranking term anywhere in the
    lower-cased question, inside a longer word as well: when [lower]
    goes through the concatenation, a question that holds a ranking
    question as a part is a ranking question. *)
Theorem is_ranking_query_context (lower : pystr -> pystr) (a query b : pystr) :
  lower (a ++ query ++ b) = lower a ++ lower query ++ lower b ->
  is_ranking_query lower query = true ->
  is_ranking_query lower (a ++ query ++ b) = true.
Proof.
  unfold is_ranking_query. intros E H.
  apply existsb_exists in H as (k & Hk & Hc). apply existsb_exists.
  exists k. split; [exact Hk|]. rewrite E.
  apply contains_Occurs. apply Occurs_context. apply contains_Occurs, Hc.
Qed.

(** X13: on ASCII questions the ranking flag, and with it the answer,
    does not depend on the case of the question. *)
Theorem frame_answer_upper_ascii (value : Type) (fmt : value -> pystr)
        (query : pystr) (rows : list (list value)) (cols : list pystr) :
  Forall (fun c => (c < 128)%N) query ->
  is_ranking_query lower_latin1 (upper_latin1 query)
  = is_ranking_query lower_latin1 query
  /\ frame_answer lower_latin1 fmt (upper_latin1 query) rows cols
     = frame_answer lower_latin1 fmt query rows cols.
Proof.
  intros H.
  assert (E : is_ranking_query lower_latin1 (upper_latin1 query)
              = is_ranking_query lower_latin1 query)
    by (unfold is_ranking_query; rewrite (lower_upper_ascii query H); reflexivity).
  split; [exact E|]. unfold frame_answer. rewrite E. reflexivity.
Qed.

Section RenderingMore.
Variable lower : pystr -> pystr.
Variable value : Type.
Variable fmt : value -> pystr.

(** X14: the answer neither starts nor ends with white space. *)
Theorem frame_answer_no_outer_space (query : pystr) (rows : list (list value))
        (cols : list pystr) :
  no_outer_space (frame_answer lower fmt query rows cols).
Proof.
  unfold frame_answer. destruct rows as [|row r].
  - split; reflexivity.
  - apply strip_no_outer_space.
Qed.

Lemma frame_rows_no_pairs (cols : list pystr) (i : nat) (rows : list (list value)) :
  Forall (fun row => combine cols row = []) rows ->
  Forall (fun c => isspace c = true) (frame_rows fmt false cols i rows).
Proof.
  intros H. revert i. induction H as [|row r Hrow Hr IH]; intros i.
  - constructor.
  - cbn [frame_rows]. unfold row_text, row_line. rewrite Hrow.
    constructor; [reflexivity | apply IH].
Qed.

(** X15: when no row has a value under a column (there is no column, or
    the rows are empty) and the question is not a ranking query, the
    answer is the empty text, not the text for no results. *)
Theorem frame_answer_no_pairs (query : pystr) (rows : list (list value))
        (cols : list pystr) :
  rows <> [] ->
  Forall (fun row => combine cols row = []) rows ->
  is_ranking_query lower query = false ->
  frame_answer lower fmt query rows cols = [].
Proof.
  intros Hne H Hr. unfold frame_answer.
  destruct rows as [|row r]; [contradiction|].
  rewrite Hr. apply strip_all_space, frame_rows_no_pairs, H.
Qed.
End RenderingMore.

(** ** The prompt *)

Lemma column_lines_none (schema : pystr) (cols : list column_entry) :
  column_lines schema cols = None <-> existsb nameless cols = true.
Proof.
  revert schema. induction cols as [|c r IH]; intros schema; simpl.
  - split; discriminate.
  - destruct c as [[n|] ty|n|]; simpl; try apply IH. tauto.
Qed.

Lemma table_sections_none (schema : pystr) (tables : list table) :
  table_sections schema tables = None <-> existsb missing_key tables = true.
Proof.
  revert schema. induction tables as [|t r IH]; intros schema;
    cbn [table_sections existsb].
  - split; discriminate.
  - unfold missing_key at 1. destruct (table_name t) as [n|]; [|tauto].
    destruct (column_lines (schema ++ [nl] ++ py "Table: " ++ n ++ [nl]) (columns t))
      as [s'|] eqn:E.
    + assert (Hc : existsb nameless (columns t) = false).
      { destruct (existsb nameless (columns t)) eqn:X; [|reflexivity].
        apply (proj2 (column_lines_none
                        (schema ++ [nl] ++ py "Table: " ++ n ++ [nl]) (columns t))) in X.
        rewrite X in E. discriminate E. }
      rewrite Hc. cbn [orb]. apply IH.
    + apply (proj1 (column_lines_none _ _)) in E. rewrite E. tauto.
Qed.

Lemma column_lines_grow (schema s' : pystr) (cols : list column_entry) :
  column_lines schema cols = Some s' ->
  (exists x, s' = schema ++ x)
  /\ forall c l, In c cols -> column_line c = Some l -> Occurs l s'.
Proof.
  revert schema. induction cols as [|c r IH]; intros schema; simpl.
  - intros [= <-]. split; [exists []; now rewrite app_nil_r | intros c l []].
  - destruct (column_line c) as [lc|] eqn:Ec; [|discriminate].
    intros H. destruct (IH _ H) as [[x Hx] Hin]. split.
    + exists (lc ++ x). rewrite Hx, app_assoc. reflexivity.
    + intros c' l [<-|Hc'] Hl.
      * rewrite Ec in Hl. injection Hl as <-.
        exists schema, x. rewrite Hx, <- app_assoc. reflexivity.
      * exact (Hin c' l Hc' Hl).
Qed.

Lemma Occurs_grow (p s x : pystr) : Occurs p s -> Occurs p (s ++ x).
Proof.
  intros (a & r & ->). exists a, (r ++ x). now rewrite <- !app_assoc.
Qed.

Lemma table_sections_grow (schema s' : pystr) (tables : list table) :
  table_sections schema tables = Some s' ->
  (exists x, s' = schema ++ x)
  /\ forall t, In t tables ->
       (forall n, table_name t = Some n -> Occurs (py "Table: " ++ n ++ [nl]) s')
       /\ (forall c l, In c (columns t) -> column_line c = Some l -> Occurs l s').
Proof.
  revert schema. induction tables as [|t r IH]; intros schema;
    cbn [table_sections].
  - intros [= <-]. split; [exists []; now rewrite app_nil_r | intros t []].
  - destruct (table_name t) as [n|] eqn:En; [|discriminate].
    destruct (column_lines (schema ++ [nl] ++ py "Table: " ++ n ++ [nl]) (columns t))
      as [s1|] eqn:Ec; [|discriminate].
    intros H. destruct (IH _ H) as [[x Hx] Hin].
    destruct (column_lines_grow _ _ _ Ec) as [[y Hy] Hcols]. split.
    + exists (([nl] ++ py "Table: " ++ n ++ [nl]) ++ y ++ x).
      rewrite Hx, Hy, <- !app_assoc. reflexivity.
    + intros t' [<-|Ht'].
      * split.
        -- intros n' Hn'. rewrite En in Hn'. injection Hn' as <-.
           rewrite Hx, Hy. apply Occurs_grow, Occurs_grow.
           exists (schema ++ [nl]), []. rewrite app_nil_r, <- !app_assoc. reflexivity.
        -- intros c l Hc Hl. rewrite Hx. apply Occurs_grow. exact (Hcols c l Hc Hl).
      * exact (Hin t' Ht').
Qed.

Section FrontEndFacts.
Variable lower : pystr -> pystr.
Variable value : Type.
Variable fmt : value -> pystr.
Variable llm : pystr -> llm_result.
Variable db : option pystr -> db_result value.
Variable metadata : list table.

(** X16: [generate_sql_query] raises, before any call to the model
    backend, exactly when one of the selected tables has no table name
    or has a column dictionary without name. *)
Theorem generate_sql_query_raises (user_query : pystr) :
  generate_sql_query lower llm metadata user_query = None
  <-> existsb missing_key (select_relevant_tables lower user_query metadata) = true.
Proof.
  unfold generate_sql_query, build_schema.
  rewrite <- (table_sections_none (py "MySQL Schema:" ++ [nl])).
  destruct (table_sections (py "MySQL Schema:" ++ [nl])
              (select_relevant_tables lower user_query metadata)) as [s|].
  - destruct (llm (build_prompt s user_query)); split; discriminate.
  - tauto.
Qed.

(** X17: the prompt sent to the model backend holds the question as it
    was asked, a line [Table: <name>] for every selected table, and the
    line of every column of a selected table. *)
Theorem generate_sql_query_prompt (user_query prompt : pystr)
        (result : option pystr * option pystr) :
  generate_sql_query lower llm metadata user_query = Some (prompt, result) ->
  Occurs user_query prompt
  /\ forall t, In t (select_relevant_tables lower user_query metadata) ->
       (forall n, table_name t = Some n ->
                  Occurs (py "Table: " ++ n ++ [nl]) prompt)
       /\ (forall c l, In c (columns t) -> column_line c = Some l ->
                       Occurs l prompt).
Proof.
  unfold generate_sql_query, build_schema.
  destruct (table_sections (py "MySQL Schema:" ++ [nl])
              (select_relevant_tables lower user_query metadata)) as [s|] eqn:E;
    [|discriminate].
  intros H.
  assert (Hp : prompt = build_prompt s user_query)
    by (destruct (llm (build_prompt s user_query)); injection H as <- _; reflexivity).
  subst prompt. clear H.
  destruct (table_sections_grow _ _ _ E) as [_ Hin].
  assert (Hs : forall p, Occurs p s -> Occurs p (build_prompt s user_query)).
  { intros p Hp. unfold build_prompt. apply Occurs_context with (a := prompt_head).
    exact Hp. }
  split.
  - unfold build_prompt.
    exists (prompt_head ++ s ++ [nl] ++ [nl] ++ py "Question:" ++ [nl]), prompt_rules.
    rewrite <- !app_assoc. reflexivity.
  - intros t Ht. destruct (Hin t Ht) as [Hn Hc]. split.
    + intros n En. apply Hs, Hn, En.
    + intros c l Hc' Hl. apply Hs. exact (Hc c l Hc' Hl).
Qed.

(** ** The desktop front end *)

(** X18: an input of white space only is ignored: nothing is written,
    nothing is called, the input stays. *)
Theorem handle_query_blank (st : ui_state) :
  Forall (fun c => isspace c = true) (input_box st) ->
  handle_query lower fmt llm db metadata st = (st, Returned).
Proof.
  intros H. unfold handle_query. rewrite (strip_all_space _ H). reflexivity.
Qed.

(** X19: whatever the backends do, the output is only added to, at most
    one call to the model backend and then at most one to the database
    are made, and the input is either kept or, after a call to the
    database, emptied. *)
Theorem handle_query_invariants (st : ui_state) :
  let st' := fst (handle_query lower fmt llm db metadata st) in
  exists (x : pystr) (l : list call),
    output st' = output st ++ x
    /\ calls st' = calls st ++ l
    /\ (l = [] \/ (exists p, l = [CallLlm p])
        \/ exists p s, l = [CallLlm p; CallDb s])
    /\ (input_box st' = input_box st
        \/ (input_box st' = [] /\ exists p s, l = [CallLlm p; CallDb s])).
Proof.
  unfold handle_query.
  destruct (strip (input_box st)) as [|c q] eqn:Eq.
  { exists [], []. cbn [fst]. rewrite !app_nil_r. auto. }
  destruct (generate_sql_query lower llm metadata (c :: q))
    as [[prompt [sql err]]|] eqn:G.
  - destruct (truthy err).
    { exists (py "You: " ++ (c :: q) ++ [nl; nl]
                ++ py "Error: " ++ fmt_opt err ++ [nl; nl]), [CallLlm prompt].
      cbn [fst output calls input_box]. rewrite <- !app_assoc.
      split; [reflexivity|]. split; [reflexivity|]. split; eauto. }
    destruct (execute_sql db sql) as [[rows cols] db_err].
    destruct (truthy db_err).
    + exists (py "You: " ++ (c :: q) ++ [nl; nl]
                ++ py "SQL:" ++ [nl] ++ fmt_opt sql ++ [nl; nl]
                ++ py "DB Error: " ++ fmt_opt db_err ++ [nl; nl]),
        [CallLlm prompt; CallDb sql].
      cbn [fst output calls input_box]. rewrite <- !app_assoc.
      split; [reflexivity|]. split; [reflexivity|]. split; eauto.
    + exists (py "You: " ++ (c :: q) ++ [nl; nl]
                ++ py "SQL:" ++ [nl] ++ fmt_opt sql ++ [nl; nl]
                ++ py "Bot:" ++ [nl]
                ++ frame_answer_of lower fmt (c :: q) rows cols ++ [nl; nl]),
        [CallLlm prompt; CallDb sql].
      cbn [fst output calls input_box]. rewrite <- !app_assoc.
      split; [reflexivity|]. split; [reflexivity|]. split; eauto.
  - exists (py "You: " ++ (c :: q) ++ [nl; nl]), [].
    cbn [fst output calls input_box]. rewrite app_nil_r. auto.
Qed.

(** X20: a query handed to the database was sanitized: it neither
    starts nor ends with white space and holds no fenced region. *)
Theorem handle_query_db_sanitized (st : ui_state) (s : pystr) :
  In (CallDb (Some s)) (calls (fst (handle_query lower fmt llm db metadata st))) ->
  In (CallDb (Some s)) (calls st)
  \/ (no_outer_space s /\ forall a m b, s <> a ++ fence ++ m ++ fence ++ b).
Proof.
  unfold handle_query.
  destruct (strip (input_box st)) as [|c q] eqn:Eq; [cbn; auto|].
  destruct (generate_sql_query lower llm metadata (c :: q))
    as [[prompt [sql err]]|] eqn:G; [|cbn; auto].
  assert (Hsql : forall x, sql = Some x ->
            no_outer_space x /\ forall a m b, x <> a ++ fence ++ m ++ fence ++ b).
  { intros x ->. unfold generate_sql_query in G.
    destruct (build_schema _) as [sc|]; [|discriminate].
    destruct (llm _) as [r|msg]; [|discriminate].
    injection G as _ Ex. subst x. split; [apply strip_no_outer_space|].
    intros a m b E.
    assert (Hb : has_block (sanitize r) = true)
      by (apply has_block_spec; exists a, m, b; exact E).
    unfold sanitize in Hb. rewrite strip_no_block in Hb; [discriminate|].
    apply re_sub_no_block. }
  assert (Hin : In (CallDb (Some s)) ((calls st ++ [CallLlm prompt]) ++ [CallDb sql]) ->
                In (CallDb (Some s)) (calls st)
                \/ (no_outer_space s /\ forall a m b, s <> a ++ fence ++ m ++ fence ++ b)).
  { intros H. apply in_app_or in H as [H|[H|[]]].
    - apply in_app_or in H as [H|[H|[]]]; [left; exact H | discriminate H].
    - injection H as E. right. apply Hsql, E. }
  destruct (truthy err).
  { cbn. intros H. apply in_app_or in H as [H|[H|[]]]; [left; exact H | discriminate H]. }
  destruct (execute_sql db sql) as [[rows cols] db_err].
  destruct (truthy db_err); cbn; exact Hin.
Qed.

(** X21: a failed synthesis never reaches the database: when the model
    backend raises with a message, the message is shown behind the
    question, the database is not called and the input is kept. *)
Theorem handle_query_synthesis_error (st : ui_state) (schema message : pystr) :
  let user_query := strip (input_box st) in
  user_query <> [] ->
  build_schema (select_relevant_tables lower user_query metadata) = Some schema ->
  llm (build_prompt schema user_query) = LlmRaise message ->
  message <> [] ->
  handle_query lower fmt llm db metadata st
  = (mkUi (output st ++ py "You: " ++ user_query ++ [nl; nl]
             ++ py "Error: " ++ message ++ [nl; nl])
          (input_box st)
          (calls st ++ [CallLlm (build_prompt schema user_query)]),
     Returned).
Proof.
  intros user_query Hq Hs Hl Hm. unfold handle_query. fold user_query.
  destruct user_query as [|c q] eqn:Eq; [contradiction|].
  unfold generate_sql_query. rewrite Hs, Hl.
  destruct message as [|m0 m]; [contradiction|].
  cbn [truthy fmt_opt]. rewrite <- !app_assoc. reflexivity.
Qed.

(** X22: a failed execution never reaches the formatting of an answer:
    when the database reports an error with a message, the query and
    the message are shown, no answer is written and the input is
    kept. *)
Theorem handle_query_db_error (st : ui_state) (schema content message : pystr) :
  let user_query := strip (input_box st) in
  user_query <> [] ->
  build_schema (select_relevant_tables lower user_query metadata) = Some schema ->
  llm (build_prompt schema user_query) = LlmText content ->
  db (Some (sanitize content)) = DbError message ->
  message <> [] ->
  handle_query lower fmt llm db metadata st
  = (mkUi (output st ++ py "You: " ++ user_query ++ [nl; nl]
             ++ py "SQL:" ++ [nl] ++ sanitize content ++ [nl; nl]
             ++ py "DB Error: " ++ message ++ [nl; nl])
          (input_box st)
          (calls st ++ [CallLlm (build_prompt schema user_query);
                        CallDb (Some (sanitize content))]),
     Returned).
Proof.
  intros user_query Hq Hs Hl Hd Hm. unfold handle_query. fold user_query.
  destruct user_query as [|c q] eqn:Eq; [contradiction|].
  unfold generate_sql_query. rewrite Hs, Hl.
  cbn [truthy fmt_opt]. unfold execute_sql. rewrite Hd.
  destruct message as [|m0 m]; [contradiction|].
  cbn [truthy fmt_opt]. rewrite <- !app_assoc. reflexivity.
Qed.

(** X23: when both backends answer, the question, the sanitized query
    and the formatted answer are written in this order, each backend is
    called once, and the input is emptied. *)
Theorem handle_query_answer (st : ui_state) (schema content : pystr)
        (rows : list (list value)) (cols : list pystr) :
  let user_query := strip (input_box st) in
  user_query <> [] ->
  build_schema (select_relevant_tables lower user_query metadata) = Some schema ->
  llm (build_prompt schema user_query) = LlmText content ->
  db (Some (sanitize content)) = DbRows rows cols ->
  handle_query lower fmt llm db metadata st
  = (mkUi (output st ++ py "You: " ++ user_query ++ [nl; nl]
             ++ py "SQL:" ++ [nl] ++ sanitize content ++ [nl; nl]
             ++ py "Bot:" ++ [nl]
             ++ frame_answer lower fmt user_query rows cols ++ [nl; nl])
          []
          (calls st ++ [CallLlm (build_prompt schema user_query);
                        CallDb (Some (sanitize content))]),
     Returned).
Proof.
  intros user_query Hq Hs Hl Hd. unfold handle_query. fold user_query.
  destruct user_query as [|c q] eqn:Eq; [contradiction|].
  unfold generate_sql_query. rewrite Hs, Hl.
  cbn [truthy fmt_opt]. unfold execute_sql. rewrite Hd.
  cbn [truthy fmt_opt frame_answer_of]. rewrite <- !app_assoc. reflexivity.
Qed.

(** X24: an exception of the model backend whose message is empty is
    not taken for an error: [None] is shown as the query and handed to
    the database. *)
Theorem handle_query_empty_message (st : ui_state) (schema : pystr) :
  let user_query := strip (input_box st) in
  user_query <> [] ->
  build_schema (select_relevant_tables lower user_query metadata) = Some schema ->
  llm (build_prompt schema user_query) = LlmRaise [] ->
  exists x,
    output (fst (handle_query lower fmt llm db metadata st))
    = output st ++ py "You: " ++ user_query ++ [nl; nl]
        ++ py "SQL:" ++ [nl] ++ py "None" ++ [nl; nl] ++ x
    /\ calls (fst (handle_query lower fmt llm db metadata st))
       = calls st ++ [CallLlm (build_prompt schema user_query); CallDb None].
Proof.
  intros user_query Hq Hs Hl. unfold handle_query. fold user_query.
  destruct user_query as [|c q] eqn:Eq; [contradiction|].
  unfold generate_sql_query. rewrite Hs, Hl.
  cbn [truthy fmt_opt].
  destruct (execute_sql db None) as [[rows cols] db_err].
  destruct (truthy db_err); eexists; cbn [fst output calls];
    rewrite <- !app_assoc; split; reflexivity.
Qed.

(** ** The web front end *)

(** X25: the chat history changes only by one turn added at its end,
    for the question asked, and only when no error is shown; when an
    error is shown, it has a message and the history is as before. *)
Theorem submit_history (chat chat' : list chat_turn) (submitted : bool)
        (user_query : pystr) (shown : option pystr) :
  submit lower fmt llm db metadata chat submitted user_query = Some (chat', shown) ->
  (shown = None
   /\ (chat' = chat
       \/ exists sql answer, chat' = chat ++ [mkTurn user_query sql answer]))
  \/ (exists message, shown = Some message /\ message <> [] /\ chat' = chat).
Proof.
  unfold submit.
  destruct submitted; [|intros [= <- <-]; auto].
  destruct user_query as [|c q]; [intros [= <- <-]; auto|].
  destruct (generate_sql_query lower llm metadata (c :: q))
    as [[prompt [sql err]]|]; [|discriminate].
  assert (T : forall e : option pystr, truthy e = true ->
                exists message, e = Some message /\ message <> []).
  { intros [[|x m]|]; try discriminate. intros _. eexists. split; [reflexivity | discriminate]. }
  destruct (truthy err) eqn:Ee.
  { intros [= <- <-]. right. destruct (T _ Ee) as (m & -> & Hm). eauto. }
  destruct (execute_sql db sql) as [[rows cols] db_err].
  destruct (truthy db_err) eqn:Ed.
  - intros [= <- <-]. right. destruct (T _ Ed) as (m & -> & Hm). eauto.
  - intros [= <- <-]. left. split; [reflexivity|]. right. eauto.
Qed.
End FrontEndFacts.

(** ** The further properties on the sample inputs *)

Lemma no_block_of_has_block (s : pystr) :
  has_block s = false -> forall a m b, s <> a ++ fence ++ m ++ fence ++ b.
Proof.
  intros H a m b E.
  assert (Hb : has_block s = true) by (apply has_block_spec; exists a, m, b; exact E).
  congruence.
Qed.

Lemma Forall_of_forallb (A : Type) (f : A -> bool) (P : A -> Prop) (l : list A) :
  (forall x, f x = true -> P x) -> forallb f l = true -> Forall P l.
Proof.
  intros HP H. apply Forall_forall. intros x Hx.
  apply HP. rewrite forallb_forall in H. apply H, Hx.
Qed.

Lemma no_backtick_of_forallb (s : pystr) :
  forallb (fun c => negb (c =? backtick)%N) s = true ->
  Forall (fun c => c <> backtick) s.
Proof.
  apply Forall_of_forallb. intros c Hc ->. discriminate Hc.
Qed.

Lemma ascii_of_forallb (s : pystr) :
  forallb (fun c => (c <? 128)%N) s = true -> Forall (fun c => (c < 128)%N) s.
Proof. apply Forall_of_forallb. intros c Hc. apply N.ltb_lt, Hc. Qed.

Lemma select_nonempty_witness :
  sample_metadata <> []
  /\ select_relevant_tables lower_latin1 unrelated_question sample_metadata <> [].
Proof.
  assert (H : sample_metadata <> []) by discriminate.
  split; [exact H|].
  exact (select_nonempty lower_latin1 unrelated_question sample_metadata H).
Defined.

Lemma select_top_witness :
  Exists (fun t => 0 < score lower_latin1 sample_question t) sample_metadata
  /\ exists ps rest : list (nat * table),
      select_relevant_tables lower_latin1 sample_question sample_metadata = map snd ps
      /\ Permutation (ps ++ rest)
           (filter (fun p : nat * table =>
                      0 <? score lower_latin1 sample_question (snd p))
                   (enum_from 0 sample_metadata))
      /\ forall p r, In p ps -> In r rest ->
                     score lower_latin1 sample_question (snd r)
                     <= score lower_latin1 sample_question (snd p).
Proof.
  assert (H : Exists (fun t => 0 < score lower_latin1 sample_question t)
                     sample_metadata)
    by (apply Exists_cons_hd; vm_compute; lia).
  split; [exact H|].
  exact (select_top lower_latin1 sample_question sample_metadata H).
Defined.

Lemma select_same_words_witness :
  (forall w, In w (split (lower_latin1 (py "order amount")))
             <-> In w (split (lower_latin1 (py "Amount  order AMOUNT"))))
  /\ select_relevant_tables lower_latin1 (py "order amount") sample_metadata
     = select_relevant_tables lower_latin1 (py "Amount  order AMOUNT") sample_metadata.
Proof.
  assert (H : forall w, In w (split (lower_latin1 (py "order amount")))
                        <-> In w (split (lower_latin1 (py "Amount  order AMOUNT"))))
    by (intros w; simpl; tauto).
  split; [exact H|].
  exact (select_same_words lower_latin1 _ _ sample_metadata H).
Defined.

Lemma score_ignores_column_witness :
  Forall (fun k => is_word k = false)
         (column_names lower_latin1 [ColStr (py "order id")])
  /\ score lower_latin1 (py "order total")
           (mkTable (Some (py "sales")) None
                    ([] ++ ColStr (py "order id") :: [ColStr (py "total")]))
     = score lower_latin1 (py "order total")
             (mkTable (Some (py "sales")) None ([] ++ [ColStr (py "total")])).
Proof.
  assert (H : Forall (fun k => is_word k = false)
                     (column_names lower_latin1 [ColStr (py "order id")]))
    by (repeat constructor).
  split; [exact H|].
  exact (score_ignores_column lower_latin1 (py "order total") (Some (py "sales")) None
           [] [ColStr (py "total")] (ColStr (py "order id")) H).
Defined.

Lemma re_sub_drops_block_witness :
  (Forall (fun c => c <> backtick) prose_response_head
   /\ Forall (fun c => c <> backtick) prose_response_block)
  /\ re_sub_fences (prose_response_head ++ fence ++ prose_response_block
                      ++ fence ++ py " Done.")
     = prose_response_head ++ re_sub_fences (py " Done.").
Proof.
  assert (Ha : Forall (fun c => c <> backtick) prose_response_head)
    by (apply no_backtick_of_forallb; reflexivity).
  assert (Hm : Forall (fun c => c <> backtick) prose_response_block)
    by (apply no_backtick_of_forallb; reflexivity).
  split; [split; assumption|].
  exact (re_sub_drops_block prose_response_head prose_response_block
           (py " Done.") Ha Hm).
Defined.

Lemma sanitize_prose_then_block_witness :
  (Forall (fun c => c <> backtick) prose_response_head
   /\ Forall (fun c => c <> backtick) prose_response_block
   /\ Forall (fun c => isspace c = true) [nl])
  /\ sanitize (prose_response_head ++ fence ++ prose_response_block ++ fence ++ [nl])
     = strip prose_response_head.
Proof.
  assert (Ha : Forall (fun c => c <> backtick) prose_response_head)
    by (apply no_backtick_of_forallb; reflexivity).
  assert (Hm : Forall (fun c => c <> backtick) prose_response_block)
    by (apply no_backtick_of_forallb; reflexivity).
  assert (Hb : Forall (fun c => isspace c = true) [nl])
    by (repeat constructor).
  split; [repeat split; assumption|].
  exact (sanitize_prose_then_block prose_response_head prose_response_block
           [nl] Ha Hm Hb).
Defined.

Lemma sanitize_plain_witness :
  (forall a m b, py "  SELECT 1;  " ++ [nl] <> a ++ fence ++ m ++ fence ++ b)
  /\ sanitize (py "  SELECT 1;  " ++ [nl]) = strip (py "  SELECT 1;  " ++ [nl]).
Proof.
  assert (H : forall a m b,
             py "  SELECT 1;  " ++ [nl] <> a ++ fence ++ m ++ fence ++ b)
    by (apply no_block_of_has_block; reflexivity).
  split; [exact H|].
  exact (sanitize_plain (py "  SELECT 1;  " ++ [nl]) H).
Defined.

Lemma is_ranking_query_context_witness :
  (lower_latin1 (py "show the " ++ py "top" ++ py "most sellers")
   = lower_latin1 (py "show the ") ++ lower_latin1 (py "top")
       ++ lower_latin1 (py "most sellers")
   /\ is_ranking_query lower_latin1 (py "top") = true)
  /\ is_ranking_query lower_latin1 (py "show the " ++ py "top" ++ py "most sellers")
     = true.
Proof.
  assert (H1 : lower_latin1 (py "show the " ++ py "top" ++ py "most sellers")
               = lower_latin1 (py "show the ") ++ lower_latin1 (py "top")
                   ++ lower_latin1 (py "most sellers")) by reflexivity.
  assert (H2 : is_ranking_query lower_latin1 (py "top") = true) by reflexivity.
  split; [split; assumption|].
  exact (is_ranking_query_context lower_latin1 (py "show the ") (py "top")
           (py "most sellers") H1 H2).
Defined.

Lemma frame_answer_upper_ascii_witness :
  Forall (fun c => (c < 128)%N) sample_question
  /\ is_ranking_query lower_latin1 (upper_latin1 sample_question)
     = is_ranking_query lower_latin1 sample_question
  /\ frame_answer lower_latin1 (fun v : pystr => v) (upper_latin1 sample_question)
                  sample_rows sample_cols
     = frame_answer lower_latin1 (fun v : pystr => v) sample_question
                    sample_rows sample_cols.
Proof.
  assert (H : Forall (fun c => (c < 128)%N) sample_question)
    by (apply ascii_of_forallb; reflexivity).
  split; [exact H|].
  exact (frame_answer_upper_ascii pystr (fun v : pystr => v) sample_question
           sample_rows sample_cols H).
Defined.

Lemma frame_answer_no_pairs_witness :
  (sample_rows <> []
   /\ Forall (fun row : list pystr => combine (@nil pystr) row = []) sample_rows
   /\ is_ranking_query lower_latin1 unrelated_question = false)
  /\ frame_answer lower_latin1 (fun v : pystr => v) unrelated_question sample_rows []
     = [].
Proof.
  assert (H1 : sample_rows <> []) by discriminate.
  assert (H2 : Forall (fun row : list pystr => combine (@nil pystr) row = [])
                      sample_rows) by (repeat constructor).
  assert (H3 : is_ranking_query lower_latin1 unrelated_question = false)
    by reflexivity.
  split; [repeat split; assumption|].
  exact (frame_answer_no_pairs lower_latin1 pystr (fun v : pystr => v)
           unrelated_question sample_rows [] H1 H2 H3).
Defined.

Lemma generate_sql_query_prompt_witness :
  generate_sql_query lower_latin1 echo_llm sample_metadata ui_question
  = Some (build_prompt sample_schema ui_question, (Some sample_sql, None))
  /\ Occurs ui_question (build_prompt sample_schema ui_question).
Proof.
  assert (H : generate_sql_query lower_latin1 echo_llm sample_metadata ui_question
              = Some (build_prompt sample_schema ui_question, (Some sample_sql, None)))
    by (vm_compute; reflexivity).
  split; [exact H|].
  exact (proj1 (generate_sql_query_prompt lower_latin1 echo_llm sample_metadata
                  ui_question _ _ H)).
Defined.

Lemma handle_query_blank_witness :
  Forall (fun c => isspace c = true) (input_box blank_ui)
  /\ handle_query lower_latin1 (fun v : pystr => v) echo_llm sample_db
                  sample_metadata blank_ui
     = (blank_ui, Returned).
Proof.
  assert (H : Forall (fun c => isspace c = true) (input_box blank_ui))
    by (repeat constructor).
  split; [exact H|].
  exact (handle_query_blank lower_latin1 pystr (fun v : pystr => v) echo_llm
           sample_db sample_metadata blank_ui H).
Defined.

Lemma handle_query_db_sanitized_witness :
  In (CallDb (Some sample_sql))
     (calls (fst (handle_query lower_latin1 (fun v : pystr => v) echo_llm sample_db
                               sample_metadata sample_ui)))
  /\ (In (CallDb (Some sample_sql)) (calls sample_ui)
      \/ (no_outer_space sample_sql
          /\ forall a m b, sample_sql <> a ++ fence ++ m ++ fence ++ b)).
Proof.
  assert (H : In (CallDb (Some sample_sql))
                 (calls (fst (handle_query lower_latin1 (fun v : pystr => v)
                                           echo_llm sample_db sample_metadata
                                           sample_ui))))
    by (vm_compute; right; left; reflexivity).
  split; [exact H|].
  exact (handle_query_db_sanitized lower_latin1 pystr (fun v : pystr => v) echo_llm
           sample_db sample_metadata sample_ui sample_sql H).
Defined.

Lemma handle_query_synthesis_error_witness :
  (strip (input_box sample_ui) <> []
   /\ build_schema (select_relevant_tables lower_latin1 (strip (input_box sample_ui))
                                           sample_metadata)
      = Some sample_schema
   /\ failing_llm (build_prompt sample_schema (strip (input_box sample_ui)))
      = LlmRaise (py "connection refused")
   /\ py "connection refused" <> [])
  /\ handle_query lower_latin1 (fun v : pystr => v) failing_llm sample_db
                  sample_metadata sample_ui
     = (mkUi (output sample_ui ++ py "You: " ++ strip (input_box sample_ui) ++ [nl; nl]
                ++ py "Error: " ++ py "connection refused" ++ [nl; nl])
             (input_box sample_ui)
             (calls sample_ui
                ++ [CallLlm (build_prompt sample_schema (strip (input_box sample_ui)))]),
        Returned).
Proof.
  assert (H1 : strip (input_box sample_ui) <> []) by (vm_compute; discriminate).
  assert (H2 : build_schema (select_relevant_tables lower_latin1
                               (strip (input_box sample_ui)) sample_metadata)
               = Some sample_schema) by (vm_compute; reflexivity).
  assert (H3 : failing_llm (build_prompt sample_schema (strip (input_box sample_ui)))
               = LlmRaise (py "connection refused")) by reflexivity.
  assert (H4 : py "connection refused" <> []) by discriminate.
  split; [repeat split; assumption|].
  exact (handle_query_synthesis_error lower_latin1 pystr (fun v : pystr => v)
           failing_llm sample_db sample_metadata sample_ui sample_schema
           (py "connection refused") H1 H2 H3 H4).
Defined.

Lemma handle_query_db_error_witness :
  (strip (input_box sample_ui) <> []
   /\ build_schema (select_relevant_tables lower_latin1 (strip (input_box sample_ui))
                                           sample_metadata)
      = Some sample_schema
   /\ echo_llm (build_prompt sample_schema (strip (input_box sample_ui)))
      = LlmText sample_sql
   /\ failing_db (Some (sanitize sample_sql)) = DbError (py "access denied")
   /\ py "access denied" <> [])
  /\ handle_query lower_latin1 (fun v : pystr => v) echo_llm failing_db
                  sample_metadata sample_ui
     = (mkUi (output sample_ui ++ py "You: " ++ strip (input_box sample_ui) ++ [nl; nl]
                ++ py "SQL:" ++ [nl] ++ sanitize sample_sql ++ [nl; nl]
                ++ py "DB Error: " ++ py "access denied" ++ [nl; nl])
             (input_box sample_ui)
             (calls sample_ui
                ++ [CallLlm (build_prompt sample_schema (strip (input_box sample_ui)));
                    CallDb (Some (sanitize sample_sql))]),
        Returned).
Proof.
  assert (H1 : strip (input_box sample_ui) <> []) by (vm_compute; discriminate).
  assert (H2 : build_schema (select_relevant_tables lower_latin1
                               (strip (input_box sample_ui)) sample_metadata)
               = Some sample_schema) by (vm_compute; reflexivity).
  assert (H3 : echo_llm (build_prompt sample_schema (strip (input_box sample_ui)))
               = LlmText sample_sql) by reflexivity.
  assert (H4 : failing_db (Some (sanitize sample_sql)) = DbError (py "access denied"))
    by reflexivity.
  assert (H5 : py "access denied" <> []) by discriminate.
  split; [repeat split; assumption|].
  exact (handle_query_db_error lower_latin1 pystr (fun v : pystr => v)
           echo_llm failing_db sample_metadata sample_ui sample_schema
           sample_sql (py "access denied") H1 H2 H3 H4 H5).
Defined.

Lemma handle_query_answer_witness :
  (strip (input_box sample_ui) <> []
   /\ build_schema (select_relevant_tables lower_latin1 (strip (input_box sample_ui))
                                           sample_metadata)
      = Some sample_schema
   /\ echo_llm (build_prompt sample_schema (strip (input_box sample_ui)))
      = LlmText sample_sql
   /\ sample_db (Some (sanitize sample_sql)) = DbRows sample_rows sample_cols)
  /\ handle_query lower_latin1 (fun v : pystr => v) echo_llm sample_db
                  sample_metadata sample_ui
     = (mkUi (output sample_ui ++ py "You: " ++ strip (input_box sample_ui) ++ [nl; nl]
                ++ py "SQL:" ++ [nl] ++ sanitize sample_sql ++ [nl; nl]
                ++ py "Bot:" ++ [nl]
                ++ frame_answer lower_latin1 (fun v : pystr => v)
                     (strip (input_box sample_ui)) sample_rows sample_cols
                ++ [nl; nl])
             []
             (calls sample_ui
                ++ [CallLlm (build_prompt sample_schema (strip (input_box sample_ui)));
                    CallDb (Some (sanitize sample_sql))]),
        Returned).
Proof.
  assert (H1 : strip (input_box sample_ui) <> []) by (vm_compute; discriminate).
  assert (H2 : build_schema (select_relevant_tables lower_latin1
                               (strip (input_box sample_ui)) sample_metadata)
               = Some sample_schema) by (vm_compute; reflexivity).
  assert (H3 : echo_llm (build_prompt sample_schema (strip (input_box sample_ui)))
               = LlmText sample_sql) by reflexivity.
  assert (H4 : sample_db (Some (sanitize sample_sql)) = DbRows sample_rows sample_cols)
    by reflexivity.
  split; [repeat split; assumption|].
  exact (handle_query_answer lower_latin1 pystr (fun v : pystr => v)
           echo_llm sample_db sample_metadata sample_ui sample_schema
           sample_sql sample_rows sample_cols H1 H2 H3 H4).
Defined.

Lemma handle_query_empty_message_witness :
  (strip (input_box sample_ui) <> []
   /\ build_schema (select_relevant_tables lower_latin1 (strip (input_box sample_ui))
                                           sample_metadata)
      = Some sample_schema
   /\ silent_llm (build_prompt sample_schema (strip (input_box sample_ui)))
      = LlmRaise [])
  /\ calls (fst (handle_query lower_latin1 (fun v : pystr => v) silent_llm sample_db
                              sample_metadata sample_ui))
     = calls sample_ui
         ++ [CallLlm (build_prompt sample_schema (strip (input_box sample_ui)));
             CallDb None].
Proof.
  assert (H1 : strip (input_box sample_ui) <> []) by (vm_compute; discriminate).
  assert (H2 : build_schema (select_relevant_tables lower_latin1
                               (strip (input_box sample_ui)) sample_metadata)
               = Some sample_schema) by (vm_compute; reflexivity).
  assert (H3 : silent_llm (build_prompt sample_schema (strip (input_box sample_ui)))
               = LlmRaise []) by reflexivity.
  split; [repeat split; assumption|].
  destruct (handle_query_empty_message lower_latin1 pystr (fun v : pystr => v)
              silent_llm sample_db sample_metadata sample_ui sample_schema
              H1 H2 H3) as [x [_ Hc]].
  exact Hc.
Defined.

Lemma submit_history_witness :
  submit lower_latin1 (fun v : pystr => v) failing_llm sample_db sample_metadata
         [] true ui_question
  = Some ([], Some (py "connection refused"))
  /\ ((Some (py "connection refused") = None
       /\ (@nil chat_turn = []
           \/ exists sql answer, [] = [] ++ [mkTurn ui_question sql answer]))
      \/ exists message,
          Some (py "connection refused") = Some message
          /\ message <> [] /\ @nil chat_turn = []).
Proof.
  assert (H : submit lower_latin1 (fun v : pystr => v) failing_llm sample_db
                     sample_metadata [] true ui_question
              = Some ([], Some (py "connection refused")))
    by (vm_compute; reflexivity).
  split; [exact H|].
  exact (submit_history lower_latin1 pystr (fun v : pystr => v) failing_llm sample_db
           sample_metadata [] [] true ui_question (Some (py "connection refused")) H).
Defined.
